(** * Sitecore dictionary helpers and the user hook: a shallow embedding

    The development follows [src/lib/sitecore-dictionary] (the context
    resolver, the two input validators and [fetchDictionaryItems]) and
    [src/utils/hooks/useUser].

    Conventions of the embedding.
    - A JavaScript string is the list of its UTF-16 code units.
    - SDK payloads are plain data: undefined, null, booleans, numbers,
      strings, arrays and objects whose properties are data.  Accessors,
      proxies and objects without a prototype are outside the model.  A
      plain object may still hold a property named [toString], and then
      its conversion to a string raises: [String] is modelled with that.
    - A promise handed out by the SDK settles: it either resolves with a
      value or rejects with a reason; [await] is sequencing.
    - Every function returns the list of observable events it produced (SDK
      calls and console lines) next to its completion.  A console line is
      recorded by its level and its leading message; the rendered extra
      arguments are not part of the model. *)

From Stdlib Require Import List NArith ZArith Bool Ascii String DecimalString Lia.
Import ListNotations.

Set Warnings "-register-all".

Open Scope N_scope.

(* ------------------------------------------------------------------ *)
(** ** Strings as UTF-16 code units *)

Module JSString.

Definition code_unit := N.
Definition jsstring := list code_unit.

Definition chr (a : ascii) : code_unit := N_of_ascii a.

(** [js "text"] is the JavaScript string with the given ASCII text. *)
Definition js (s : string) : jsstring := map N_of_ascii (list_ascii_of_string s).

Fixpoint str_eqb (s t : jsstring) : bool :=
  match s, t with
  | [], [] => true
  | a :: s', b :: t' => (a =? b) && str_eqb s' t'
  | _, _ => false
  end.

(** Inclusive range of code units [lo .. hi]. *)
Definition units_between (lo hi : code_unit) : list code_unit :=
  map N.of_nat (seq (N.to_nat lo) (N.to_nat (N.succ hi - lo))).

(** WhiteSpace and LineTerminator code points of ECMAScript: the set that
    [String.prototype.trim] strips and that [\s] matches. *)
Definition white_space_units : list code_unit :=
  [9; 10; 11; 12; 13; 32; 160; 5760]
    ++ units_between 8192 8202
    ++ [8232; 8233; 8239; 8287; 12288; 65279].

Definition isWhiteSpace (c : code_unit) : bool :=
  existsb (N.eqb c) white_space_units.

Fixpoint trimStart (s : jsstring) : jsstring :=
  match s with
  | [] => []
  | c :: s' => if isWhiteSpace c then trimStart s' else s
  end.

Definition trimEnd (s : jsstring) : jsstring := rev (trimStart (rev s)).

(** [String.prototype.trim] *)
Definition trim (s : jsstring) : jsstring := trimEnd (trimStart s).

End JSString.
Export JSString.

(* ------------------------------------------------------------------ *)
(** ** Regular expressions

    Both validators use a literal of the shape [/^ body $/] without the
    [m] flag, so [test] succeeds exactly when [body] matches the whole
    input.  [body] is kept as syntax and run by derivatives. *)

Module RegExp.

Inductive class_atom : Type :=
| ClassChar (c : code_unit)            (* a single character, escaped or not *)
| ClassRange (lo hi : code_unit)       (* lo-hi *)
| ClassWord                            (* \w *)
| ClassSpace.                          (* \s *)

Inductive pattern : Type :=
| Never                                (* matches nothing; arises from derivatives *)
| Empty                                (* the empty pattern *)
| Chars (cls : list class_atom)        (* a class [...] or a single character *)
| Seq (p q : pattern)
| Alt (p q : pattern)
| Star (p : pattern).

Definition Plus (p : pattern) : pattern := Seq p (Star p).
Definition Opt (p : pattern) : pattern := Alt p Empty.

(** The quantifier [{lo,hi}]. *)
Fixpoint Repeat (lo hi : nat) (p : pattern) : pattern :=
  match hi with
  | O => Empty
  | S hi' =>
    match lo with
    | O => Opt (Seq p (Repeat 0 hi' p))
    | S lo' => Seq p (Repeat lo' hi' p)
    end
  end.

(** A run of literal characters. *)
Fixpoint Lit (s : jsstring) : pattern :=
  match s with
  | [] => Empty
  | c :: s' => Seq (Chars [ClassChar c]) (Lit s')
  end.

Definition word_units : list code_unit :=
  units_between (chr "a") (chr "z") ++ units_between (chr "A") (chr "Z")
    ++ units_between (chr "0") (chr "9") ++ [chr "_"].

Definition atom_units (a : class_atom) : list code_unit :=
  match a with
  | ClassChar c => [c]
  | ClassRange lo hi => units_between lo hi
  | ClassWord => word_units
  | ClassSpace => white_space_units
  end.

Definition class_units (cls : list class_atom) : list code_unit :=
  flat_map atom_units cls.

Definition asciiUpper (c : code_unit) : code_unit :=
  if (chr "a" <=? c) && (c <=? chr "z") then c - 32 else c.

Record RegExp : Type := mkRegExp
  { body : pattern;          (* the text between ^ and $ *)
    ignoreCase : bool }.     (* the i flag *)

Section Matcher.

(** Upper-case mapping of a code unit outside ASCII, as
    [String.prototype.toUpperCase] gives it when the result is one code
    unit (and the unit itself otherwise).  The Unicode table is not part
    of the repository; nothing below depends on its contents. *)
Variable unicodeUpper : code_unit -> code_unit.

(** Canonicalize of the ECMAScript pattern semantics, without the [u]
    flag: a character outside ASCII never folds onto an ASCII one. *)
Definition canonicalize (ic : bool) (ch : code_unit) : code_unit :=
  if ic then
    if ch <? 128 then asciiUpper ch
    else
      let cu := unicodeUpper ch in
      if cu <? 128 then ch else cu
  else ch.

(** CharacterSetMatcher: some member of the set canonicalizes like [ch]. *)
Definition class_matches (ic : bool) (cls : list class_atom) (ch : code_unit) : bool :=
  existsb (fun a => canonicalize ic a =? canonicalize ic ch) (class_units cls).

Fixpoint nullable (p : pattern) : bool :=
  match p with
  | Never => false
  | Empty => true
  | Chars _ => false
  | Seq p q => nullable p && nullable q
  | Alt p q => nullable p || nullable q
  | Star _ => true
  end.

Fixpoint deriv (ic : bool) (ch : code_unit) (p : pattern) : pattern :=
  match p with
  | Never => Never
  | Empty => Never
  | Chars cls => if class_matches ic cls ch then Empty else Never
  | Seq p q =>
    if nullable p
    then Alt (Seq (deriv ic ch p) q) (deriv ic ch q)
    else Seq (deriv ic ch p) q
  | Alt p q => Alt (deriv ic ch p) (deriv ic ch q)
  | Star p => Seq (deriv ic ch p) (Star p)
  end.

Fixpoint matches_whole (ic : bool) (p : pattern) (s : jsstring) : bool :=
  match s with
  | [] => nullable p
  | ch :: s' => matches_whole ic (deriv ic ch p) s'
  end.

(** [re.test(s)] for an anchored literal. *)
Definition test (re : RegExp) (s : jsstring) : bool :=
  matches_whole (ignoreCase re) (body re) s.

(** Declarative reading of a pattern. *)
Inductive Matches (ic : bool) : pattern -> jsstring -> Prop :=
| MEmpty : Matches ic Empty []
| MChars cls ch : class_matches ic cls ch = true -> Matches ic (Chars cls) [ch]
| MSeq p q s t : Matches ic p s -> Matches ic q t -> Matches ic (Seq p q) (s ++ t)
| MAltL p q s : Matches ic p s -> Matches ic (Alt p q) s
| MAltR p q s : Matches ic q s -> Matches ic (Alt p q) s
| MStarNil p : Matches ic (Star p) []
| MStarApp p s t : Matches ic p s -> Matches ic (Star p) t -> Matches ic (Star p) (s ++ t).

End Matcher.

End RegExp.

(* ------------------------------------------------------------------ *)
(** ** Plain JavaScript data *)

Module JSValue.

(** A double: NaN, an infinity, or (-1)^negative * mantissa * 2^exponent. *)
Inductive number : Type :=
| NaN
| Infinity (negative : bool)
| Finite (negative : bool) (mantissa : N) (exponent : Z).

Inductive value : Type :=
| VUndefined
| VNull
| VBool (b : bool)
| VNumber (n : number)
| VString (s : jsstring)
| VArray (elems : list value)
| VObject (props : list (jsstring * value)).

(** ToBoolean *)
Definition truthy (v : value) : bool :=
  match v with
  | VUndefined | VNull => false
  | VBool b => b
  | VNumber NaN => false
  | VNumber (Infinity _) => true
  | VNumber (Finite _ m _) => negb (m =? 0)
  | VString s => match s with [] => false | _ :: _ => true end
  | VArray _ | VObject _ => true
  end.

Definition nullish (v : value) : bool :=
  match v with
  | VUndefined | VNull => true
  | _ => false
  end.

(** [typeof v === "string"] *)
Definition isString (v : value) : bool :=
  match v with
  | VString _ => true
  | _ => false
  end.

(** [Array.isArray(v)] *)
Definition isArray (v : value) : bool :=
  match v with
  | VArray _ => true
  | _ => false
  end.

Definition elements (v : value) : list value :=
  match v with
  | VArray elems => elems
  | _ => []
  end.

(** [a || b] *)
Definition or_else (a b : value) : value := if truthy a then a else b.

(** [a ?? b] *)
Definition coalesce (a b : value) : value := if nullish a then b else a.

Fixpoint own_property (name : jsstring) (props : list (jsstring * value)) : value :=
  match props with
  | [] => VUndefined
  | (k, v) :: rest => if str_eqb name k then v else own_property name rest
  end.

(** [v.name] on a value that is neither null nor undefined, for a [name]
    that no built-in prototype defines (every name the sources read is of
    that kind: data, resources, context, preview, item, children, results,
    keyField, phraseField, value, name). *)
Definition get_field (v : value) (name : jsstring) : value :=
  match v with
  | VObject props => own_property name props
  | _ => VUndefined
  end.

Definition index_key (i : nat) : jsstring :=
  js (NilEmpty.string_of_uint (Nat.to_uint i)).

(** [v[i]] on a value that is neither null nor undefined. *)
Definition get_index (v : value) (i : nat) : value :=
  match v with
  | VArray elems => nth i elems VUndefined
  | VObject props => own_property (index_key i) props
  | VString s =>
    match nth_error s i with
    | Some c => VString [c]
    | None => VUndefined
    end
  | _ => VUndefined
  end.

Definition has_own_property (name : jsstring) (props : list (jsstring * value)) : bool :=
  existsb (fun kv => str_eqb name (fst kv)) props.

(** A piece of the text a conversion to string gives: literal text, the
    decimal rendering of a number (left to the number-to-string
    algorithm), or the message of an error the engine raised (left to the
    implementation). *)
Inductive chunk : Type :=
| Literal (s : jsstring)
| Decimal (n : number)
| EngineText.

(** [String(v)] on plain data; [None] when the conversion raises a
    TypeError.  An object converts through [Object.prototype.toString]
    unless it has a property of its own named [toString]: that property
    is data, hence not callable, and [valueOf] gives back the object, so
    no primitive is found.  An array converts through [join], which reads
    null and undefined elements as empty and converts the others. *)
Fixpoint ToString (v : value) : option (list chunk) :=
  match v with
  | VUndefined => Some [Literal (js "undefined")]
  | VNull => Some [Literal (js "null")]
  | VBool true => Some [Literal (js "true")]
  | VBool false => Some [Literal (js "false")]
  | VNumber n => Some [Decimal n]
  | VString s => Some [Literal s]
  | VArray elems =>
    (fix join (l : list value) : option (list chunk) :=
       match l with
       | [] => Some []
       | x :: l' =>
         match (if nullish x then Some [] else ToString x), join l' with
         | Some text, Some rest =>
           Some (text ++ match l' with [] => [] | _ :: _ => [Literal (js ",")] end ++ rest)
         | _, _ => None
         end
       end) elems
  | VObject props =>
    if has_own_property (js "toString") props then None
    else Some [Literal (js "[object Object]")]
  end.

(** Number of constructors of a value. *)
Fixpoint size (v : value) : nat :=
  match v with
  | VArray elems => S (list_sum (map size elems))
  | VObject props => S (list_sum (map (fun kv => size (snd kv)) props))
  | _ => 1
  end.

(** [v?.name] and [v?.[i]] *)
Definition opt_field (v : value) (name : jsstring) : value :=
  if nullish v then VUndefined else get_field v name.

Definition opt_index (v : value) (i : nat) : value :=
  if nullish v then VUndefined else get_index v i.

End JSValue.
Export JSValue.

(* ------------------------------------------------------------------ *)
(** ** Completions, events and the SDK client *)

Module Effects.

(** What a [throw] or a rejected promise carries. *)
Inductive thrown : Type :=
| TypeError                         (* raised by the engine *)
| ErrorObject (message : jsstring)  (* an instance of Error *)
| Thrown (v : value).               (* any other value *)

Inductive completion (A : Type) : Type :=
| Normal (a : A)
| Throw (e : thrown).
Arguments Normal {A} a.
Arguments Throw {A} e.

Inductive level : Type := LError | LWarn | LLog.

Inductive event : Type :=
| SdkQuery (name : jsstring)
| SdkMutate (name : jsstring) (params : value)
| Console (lvl : level) (message : jsstring).

Definition isSdkCall (e : event) : bool :=
  match e with
  | SdkQuery _ | SdkMutate _ _ => true
  | Console _ _ => false
  end.

(** A computation: the events it produced, in order, and how it ended. *)
Definition Async (A : Type) : Type := (list event * completion A)%type.

Definition ret {A} (a : A) : Async A := ([], Normal a).

Definition bind {A B} (m : Async A) (f : A -> Async B) : Async B :=
  match m with
  | (t, Normal a) => let (t', c) := f a in (t ++ t', c)
  | (t, Throw e) => (t, Throw e)
  end.

Definition raise {A} (e : thrown) : Async A := ([], Throw e).

(** [try { m } catch (error) { h error }] *)
Definition tryCatch {A} (m : Async A) (h : thrown -> Async A) : Async A :=
  match m with
  | (t, Normal a) => (t, Normal a)
  | (t, Throw e) => let (t', c) := h e in (t ++ t', c)
  end.

Definition console (lvl : level) (message : jsstring) : Async unit :=
  ([Console lvl message], Normal tt).

(** How a completion reads through a [catch] handler that returns
    [fallback]. *)
Definition recover {A} (fallback : A) (c : completion A) : completion A :=
  match c with
  | Normal a => Normal a
  | Throw _ => Normal fallback
  end.

Definition trace {A} (m : Async A) : list event := fst m.
Definition outcome {A} (m : Async A) : completion A := snd m.

Declare Scope async_scope.
Delimit Scope async_scope with async.
Notation "x <- m ;; k" := (bind m (fun x => k))
  (at level 61, m at next level, right associativity) : async_scope.
Notation "m ;; k" := (bind m (fun _ => k))
  (at level 61, right associativity) : async_scope.
Open Scope async_scope.

Fixpoint mapM {A B} (f : A -> Async B) (l : list A) : Async (list B) :=
  match l with
  | [] => ret []
  | a :: l' => b <- f a ;; bs <- mapM f l' ;; ret (b :: bs)
  end.

Fixpoint filterM {A} (f : A -> Async bool) (l : list A) : Async (list A) :=
  match l with
  | [] => ret []
  | a :: l' => keep <- f a ;; rest <- filterM f l' ;; ret (if keep then a :: rest else rest)
  end.

(** A settled promise. *)
Inductive settled : Type :=
| Resolved (v : value)
| Rejected (e : thrown).

(** The two operations of the marketplace SDK the sources use, as the
    client answers them during one run of a function: every function of
    the sources calls each operation at most once per run, so one answer
    per operation describes the run.  Two calls of the same operation
    (two runs, or two effects of one render) are two values of this type.
    Each operation hands back a promise, as its type says. *)
Record ClientSDK : Type := mkClient
  { query : jsstring -> settled;
    mutate : jsstring -> value -> settled }.

Definition await (p : settled) : Async value :=
  match p with
  | Resolved v => ret v
  | Rejected e => raise e
  end.

Definition client_query (c : ClientSDK) (name : jsstring) : Async value :=
  ([SdkQuery name], Normal tt) ;; await (query c name).

Definition client_mutate (c : ClientSDK) (name : jsstring) (params : value) : Async value :=
  ([SdkMutate name params], Normal tt) ;; await (mutate c name params).

(** [v.name]: reading a property of null or undefined raises. *)
Definition member (v : value) (name : jsstring) : Async value :=
  if nullish v then raise TypeError else ret (get_field v name).

(** [v.trim()]: only a string has the method. *)
Definition call_trim (v : value) : Async jsstring :=
  match v with
  | VString s => ret (trim s)
  | _ => raise TypeError
  end.

End Effects.
Export Effects.

(* ------------------------------------------------------------------ *)
(** ** src/lib/sitecore-dictionary *)

Module SitecoreDictionary.

Import RegExp.

(** Dictionary entry template ID *)
Definition DICTIONARY_ENTRY_TEMPLATE_ID : jsstring :=
  js "{6D1CD897-1936-4A3A-A511-289A94C2A7B1}".

(** Objects the fetcher builds; nothing checks the runtime type of either
    property, so both are values. *)
Record DictionaryItem : Type := mkItem
  { key : value;
    phrase : value }.

(** [/^\/sitecore\/[\w\s\-/]+$/] *)
Definition sitecorePathRegExp : RegExp :=
  {| body := Seq (Lit (js "/sitecore/"))
                 (Plus (Chars [ClassWord; ClassSpace; ClassChar (chr "-"); ClassChar (chr "/")]));
     ignoreCase := false |}.

(** [/^[a-z]{2}(-[a-z]{2,3})?$/i] *)
Definition languageCodeRegExp : RegExp :=
  {| body := Seq (Repeat 2 2 (Chars [ClassRange (chr "a") (chr "z")]))
                 (Opt (Seq (Chars [ClassChar (chr "-")])
                           (Repeat 2 3 (Chars [ClassRange (chr "a") (chr "z")]))));
     ignoreCase := true |}.

Definition DEFAULT_DICTIONARY_PATH : jsstring :=
  js "/sitecore/content/ai/cadenceaiconversion/Dictionary/Demo".
Definition DEFAULT_LANGUAGE : jsstring := js "en".

(** The template literal of the GraphQL query, line by line. *)
Definition dq : jsstring := [34].
Definition line (indent : nat) (text : jsstring) : jsstring :=
  [10] ++ repeat 32 indent ++ text.

Definition graphql_query (dictionaryPath language : jsstring) : jsstring :=
  js "{"
  ++ line 14 (js "item(path:" ++ dq ++ dictionaryPath ++ dq
              ++ js ", language:" ++ dq ++ language ++ dq ++ js ") {")
  ++ line 16 (js "children(includeTemplateIDs:" ++ dq
              ++ DICTIONARY_ENTRY_TEMPLATE_ID ++ dq ++ js ") {")
  ++ line 18 (js "results {")
  ++ line 20 (js "keyField: field(name: " ++ dq ++ js "Key" ++ dq ++ js ") {")
  ++ line 22 (js "value")
  ++ line 20 (js "},")
  ++ line 20 (js "phraseField: field(name: " ++ dq ++ js "Phrase" ++ dq ++ js ") {")
  ++ line 22 (js "value")
  ++ line 20 (js "}")
  ++ line 18 (js "}")
  ++ line 16 (js "}")
  ++ line 14 (js "}")
  ++ line 12 (js "}").

Definition graphql_params (previewContextId : value) (q : jsstring) : value :=
  VObject
    [(js "params",
      VObject
        [(js "query", VObject [(js "sitecoreContextId", previewContextId)]);
         (js "body", VObject [(js "query", VString q)])])].

(** [response?.data?.data?.item?.children?.results] *)
Definition results_of (response : value) : value :=
  opt_field (opt_field (opt_field (opt_field (opt_field response
    (js "data")) (js "data")) (js "item")) (js "children")) (js "results").

(** [appContext?.resources?.[0]?.context?.preview] *)
Definition preview_of (appContext : value) : value :=
  opt_field (opt_field (opt_index (opt_field appContext
    (js "resources")) 0) (js "context")) (js "preview").

(** The callback given to [results.map]. *)
Definition to_item (item : value) : Async DictionaryItem :=
  keyField <- member item (js "keyField") ;;
  let key := or_else (opt_field keyField (js "value")) (VString []) in
  phraseField <- member item (js "phraseField") ;;
  let phrase := or_else (opt_field phraseField (js "value")) (VString []) in
  (if negb (truthy phrase)
   then console LWarn (js "Dictionary item missing Phrase field, skipping item with key:")
   else ret tt) ;;
  ret {| key := key; phrase := phrase |}.

(** The callback given to [.filter]: [item.phrase.trim().length > 0]. *)
Definition has_phrase (item : DictionaryItem) : Async bool :=
  trimmed <- call_trim (phrase item) ;;
  ret (0 <? List.length trimmed)%nat.

(** Helper to extract the message of an error: [error.message] for an
    instance of Error, [String(error)] otherwise. *)
Definition getErrorMessage (error : thrown) : Async (list chunk) :=
  match error with
  | TypeError => ret [EngineText]
  | ErrorObject message => ret [Literal message]
  | Thrown v =>
    match ToString v with
    | Some text => ret text
    | None => raise TypeError
    end
  end.

Definition getApplicationContext (client : option ClientSDK) : Async value :=
  match client with
  | None => ret VNull
  | Some c =>
    tryCatch
      (application <- client_query c (js "application.context") ;;
       ret (coalesce (opt_field application (js "data")) VNull))
      (fun error =>
         message <- getErrorMessage error ;;
         console LError (js "Failed to get application context:") ;;
         ret VNull)
  end.

Definition getPreviewContextId (client : option ClientSDK) : Async value :=
  match client with
  | None => ret VNull
  | Some _ =>
    tryCatch
      (appContext <- getApplicationContext client ;;
       if negb (truthy appContext) then ret VNull
       else
         let previewContextId := preview_of appContext in
         if negb (isString previewContextId)
         then
           console LError (js "Preview context ID not found in application context") ;;
           ret VNull
         else ret previewContextId)
      (fun error =>
         message <- getErrorMessage error ;;
         console LError (js "Failed to get preview context ID:") ;;
         ret VNull)
  end.

(** The rest of the [try] block, from the point where [response] is in
    hand: the type guard on the response and the map/filter chain. *)
Definition process_response (response : value) : Async (list DictionaryItem) :=
  console LLog (js "GraphQL Response:") ;;
  let results := results_of response in
  if negb (truthy results) || negb (isArray results)
  then console LWarn (js "No dictionary items found at path:") ;; ret []
  else if (List.length (elements results) =? 0)%nat
  then console LWarn (js "Dictionary folder is empty at path:") ;; ret []
  else
    items <- mapM to_item (elements results) ;;
    filterM has_phrase items.

(** The body of the [try] block of [fetchDictionaryItems]. *)
Definition fetch_body (c : ClientSDK) (dictionaryPath language : jsstring)
  : Async (list DictionaryItem) :=
  previewContextId <- getPreviewContextId (Some c) ;;
  console LLog (js "Preview Context ID:") ;;
  if negb (truthy previewContextId)
  then console LWarn (js "No preview context ID found") ;; ret []
  else
    let q := graphql_query dictionaryPath language in
    console LLog (js "Executing GraphQL Query:") ;;
    response <- client_mutate c (js "xmc.preview.graphql")
                              (graphql_params previewContextId q) ;;
    process_response response.

Section Fetcher.

Variable unicodeUpper : code_unit -> code_unit.

Definition isValidSitecorePath (path : jsstring) : bool :=
  test unicodeUpper sitecorePathRegExp path.

Definition isValidLanguageCode (language : jsstring) : bool :=
  test unicodeUpper languageCodeRegExp language.

Definition fetchDictionaryItems (client : option ClientSDK)
           (dictionaryPath language : jsstring) : Async (list DictionaryItem) :=
  match client with
  | None => console LError (js "Sitecore client is not initialized") ;; ret []
  | Some c =>
    if negb (isValidSitecorePath dictionaryPath)
    then console LError (js "Invalid dictionary path format:") ;; ret []
    else if negb (isValidLanguageCode language)
    then console LError (js "Invalid language code format:") ;; ret []
    else
      tryCatch
        (fetch_body c dictionaryPath language)
        (fun error =>
           message <- getErrorMessage error ;;
           console LError (js "Failed to fetch dictionary items:") ;;
           ret [])
  end.

(** A call that leaves out the optional arguments. *)
Definition fetchDictionaryItems_default (client : option ClientSDK)
  : Async (list DictionaryItem) :=
  fetchDictionaryItems client DEFAULT_DICTIONARY_PATH DEFAULT_LANGUAGE.

End Fetcher.

End SitecoreDictionary.

(* ------------------------------------------------------------------ *)
(** ** src/utils/hooks/useUser *)

Module UseUser.

(** The two [useState] cells of the hook. *)
Record HookState : Type := mkHook
  { user : value;
    isLoading : bool }.

(** [useState(undefined)], [useState(true)] *)
Definition initial : HookState := {| user := VUndefined; isLoading := true |}.

Definition setUser (data : value) (st : HookState) : HookState :=
  {| user := data; isLoading := isLoading st |}.

Definition setIsLoading (b : bool) (st : HookState) : HookState :=
  {| user := user st; isLoading := b |}.

(** What the effect does, in order: SDK calls and console lines, and the
    calls of the two state setters. *)
Inductive hook_event : Type :=
| Effect (e : event)
| SetUser (data : value)
| SetIsLoading (b : bool).

Definition isHookQuery (h : hook_event) : bool :=
  match h with
  | Effect e => isSdkCall e
  | _ => false
  end.

(** [const { data } = response]: destructuring null or undefined raises. *)
Definition destructure_data (response : value) : Async value :=
  member response (js "data").

(** The effect [fetchUserData], run with the handle and flag that
    [useMarketplaceClient] returned: [try { ... } catch { ... } finally
    { setIsLoading(false) }] behind the guard. *)
Definition fetchUserData (client : option ClientSDK) (isInitialized : bool)
  : list hook_event :=
  match client with
  | None => []
  | Some c =>
    if negb isInitialized then []
    else
      let attempt := (response <- client_query c (js "host.user") ;;
                      destructure_data response) in
      [SetIsLoading true]
      ++ map Effect (trace attempt)
      ++ match outcome attempt with
         | Normal data => [SetUser data]
         | Throw error => [Effect (Console LError (js "Failed to fetch user data:"))]
         end
      ++ [SetIsLoading false]
  end.

Definition apply_event (st : HookState) (h : hook_event) : HookState :=
  match h with
  | Effect _ => st
  | SetUser data => setUser data st
  | SetIsLoading b => setIsLoading b st
  end.

(** The hook state after the effect ran from state [st]. *)
Definition after_effect (client : option ClientSDK) (isInitialized : bool)
           (st : HookState) : HookState :=
  fold_left apply_event (fetchUserData client isInitialized) st.

(** What [useUser] returns once the effect of the first render is done. *)
Definition useUser (client : option ClientSDK) (isInitialized : bool) : HookState :=
  after_effect client isInitialized initial.

End UseUser.

(* ------------------------------------------------------------------ *)
(** ** The specification's reading of the validators and of the item list

    These definitions follow the words of the specification, not the
    sources; the theorems below compare them with the embedded code. *)

Module Spec.

Import SitecoreDictionary.

Definition between (lo hi c : code_unit) : bool := (lo <=? c) && (c <=? hi).

(** A letter, in either case. *)
Definition isLetter (c : code_unit) : bool :=
  between (chr "a") (chr "z") c || between (chr "A") (chr "Z") c.

(** A word character: letter, digit or underscore. *)
Definition isWordChar (c : code_unit) : bool :=
  isLetter c || between (chr "0") (chr "9") c || (c =? chr "_").

(** "only word characters, whitespace, hyphens, slashes" *)
Definition isPathChar (c : code_unit) : bool :=
  isWordChar c || isWhiteSpace c || (c =? chr "-") || (c =? chr "/").

Fixpoint strip_prefix (prefix s : jsstring) : option jsstring :=
  match prefix, s with
  | [], _ => Some s
  | a :: prefix', b :: s' => if a =? b then strip_prefix prefix' s' else None
  | _ :: _, [] => None
  end.

(** "starts with a fixed root, contains only word characters, whitespace,
    hyphens, slashes" (and at least one of them after the root). *)
Definition path_ok (path : jsstring) : bool :=
  match strip_prefix (js "/sitecore/") path with
  | Some rest => negb (List.length rest =? 0)%nat && forallb isPathChar rest
  | None => false
  end.

(** "a 2-letter primary code optionally followed by a hyphen and a 2-3
    letter region code, case-insensitive" *)
Definition language_ok (language : jsstring) : bool :=
  match language with
  | [a; b] => isLetter a && isLetter b
  | [a; b; h; c; d] =>
    isLetter a && isLetter b && (h =? chr "-") && isLetter c && isLetter d
  | [a; b; h; c; d; e] =>
    isLetter a && isLetter b && (h =? chr "-") && isLetter c && isLetter d && isLetter e
  | _ => false
  end.




(** "non-empty after trimming" *)
Definition nonblank (s : jsstring) : bool := negb (List.length (trim s) =? 0)%nat.

Definition phrase_text (item : DictionaryItem) : jsstring :=
  match phrase item with
  | VString s => s
  | _ => []
  end.



(** The response of the specification's worked example. *)
Definition field_object (text : string) : value :=
  VObject [(js "value", VString (js text))].

Definition example_results : list value :=
  [ VObject [(js "keyField", field_object "a"); (js "phraseField", field_object "Hello")];
    VObject [(js "keyField", field_object "b"); (js "phraseField", field_object "")] ].

End Spec.

(* ------------------------------------------------------------------ *)
(** ** Sample clients and payloads *)

Module Examples.

Import SitecoreDictionary.

(** A case mapping that folds nothing outside ASCII. *)
Definition no_folding (c : code_unit) : code_unit := c.

(** [{ data: { resources: [ { context: { preview: "preview-1" } } ] } }] *)
Definition sample_context : value :=
  VObject
    [(js "data",
      VObject
        [(js "resources",
          VArray [VObject [(js "context",
                            VObject [(js "preview", VString (js "preview-1"))])]])])].

(** [{ data: { data: { item: { children: { results } } } } }] *)
Definition response_with (results : value) : value :=
  VObject
    [(js "data",
      VObject
        [(js "data",
          VObject
            [(js "item",
              VObject [(js "children", VObject [(js "results", results)])])])])].

(** The results one level too high:
    [{ data: { item: { children: { results } } } }]. *)
Definition shallow_response (results : value) : value :=
  VObject
    [(js "data",
      VObject
        [(js "item",
          VObject [(js "children", VObject [(js "results", results)])])])].

(** A client whose context query succeeds and whose GraphQL call resolves
    to [response]. *)
Definition client_answering (response : value) : ClientSDK :=
  {| query := fun _ => Resolved sample_context;
     mutate := fun _ _ => Resolved response |}.

(** A client all of whose calls reject. *)
Definition offline_client : ClientSDK :=
  {| query := fun _ => Rejected (ErrorObject (js "offline"));
     mutate := fun _ _ => Rejected (ErrorObject (js "offline")) |}.

(** A client whose context query succeeds and whose GraphQL call rejects. *)
Definition failing_graphql_client : ClientSDK :=
  {| query := fun _ => Resolved sample_context;
     mutate := fun _ _ => Rejected (ErrorObject (js "bad gateway")) |}.

(** A plain object with a property of its own named [toString]:
    [{ toString: 0 }]. *)
Definition unprintable_reason : value :=
  VObject [(js "toString", VNumber (Finite false 0 0))].

(** A client whose context query succeeds and whose GraphQL call rejects
    with [unprintable_reason]. *)
Definition unprintable_graphql_client : ClientSDK :=
  {| query := fun _ => Resolved sample_context;
     mutate := fun _ _ => Rejected (Thrown unprintable_reason) |}.

(** A client whose every call rejects with [unprintable_reason]. *)
Definition unprintable_client : ClientSDK :=
  {| query := fun _ => Rejected (Thrown unprintable_reason);
     mutate := fun _ _ => Rejected (Thrown unprintable_reason) |}.

(** A client whose every query resolves to [response]. *)
Definition client_resolving (response : value) : ClientSDK :=
  {| query := fun _ => Resolved response;
     mutate := fun _ _ => Resolved VUndefined |}.


(** One result whose key is a number and whose phrase is padded. *)
Definition numeric_key_results : list value :=
  [ VObject [(js "keyField", VObject [(js "value", VNumber (Finite false 7 0))]);
             (js "phraseField", Spec.field_object " hi ")] ].

(** A context whose preview id is the empty string. *)
Definition empty_preview_context : value :=
  VObject
    [(js "data",
      VObject
        [(js "resources",
          VArray [VObject [(js "context", VObject [(js "preview", VString [])])]])])].

End Examples.

(* ------------------------------------------------------------------ *)
(** ** What the map callback builds *)

Module Readings.

Import SitecoreDictionary.

(** The object [to_item] returns for an entry that is neither null nor
    undefined: [{ key: item.keyField?.value || "", phrase:
    item.phraseField?.value || "" }]. *)
Definition raw_item (r : value) : DictionaryItem :=
  {| key := or_else (opt_field (get_field r (js "keyField")) (js "value")) (VString []);
     phrase := or_else (opt_field (get_field r (js "phraseField")) (js "value")) (VString []) |}.

(** The line [to_item] logs for an entry whose phrase is falsy. *)
Definition missing_phrase_warning : event :=
  Console LWarn (js "Dictionary item missing Phrase field, skipping item with key:").

Definition sdk_calls (t : list event) : list event := filter isSdkCall t.

(** [getErrorMessage] returns for this reason. *)
Definition printable (e : thrown) : bool :=
  match outcome (getErrorMessage e) with
  | Normal _ => true
  | Throw _ => false
  end.

(** How a completion reads through a [catch] block that logs
    [getErrorMessage(error)] and returns [fallback]: the block itself
    raises when the message cannot be extracted. *)
Definition caught {A} (fallback : A) (c : completion A) : completion A :=
  match c with
  | Normal a => Normal a
  | Throw e => if printable e then Normal fallback else Throw TypeError
  end.

(** The line the map callback logs for an entry, if any. *)
Definition phrase_warning (r : value) : list event :=
  if truthy (phrase (raw_item r)) then [] else [missing_phrase_warning].

(** No entry is null or undefined, and every phrase the map callback
    builds is a string: the map/filter chain runs through. *)
Definition entries_usable (rs : list value) : bool :=
  forallb (fun r => negb (nullish r)) rs
  && forallb (fun r => isString (phrase (raw_item r))) rs.

(** What [getApplicationContext] returns for a client that is present. *)
Definition context_of (c : ClientSDK) : value :=
  match query c (js "application.context") with
  | Resolved r => coalesce (opt_field r (js "data")) VNull
  | Rejected _ => VNull
  end.

(** What [getPreviewContextId] returns for a client that is present. *)
Definition preview_id_of (c : ClientSDK) : value :=
  if isString (preview_of (context_of c)) then preview_of (context_of c) else VNull.

(** A character the language validator lets through. *)
Definition isLanguageChar (c : code_unit) : bool := Spec.isLetter c || (c =? chr "-").


End Readings.

(* ------------------------------------------------------------------ *)
(** ** src/app/standalone-extension/components/WhoAmI *)

Module WhoAmI.

Import UseUser.

(** A React element as the component returns it: literal text, an
    embedded expression holding plain data, or a tag with its children. *)
Inductive node : Type :=
| Text (s : jsstring)
| Expr (v : value)
| Elem (tag : jsstring) (children : list node).

(** [extendedUser?.name ?? ""] *)
Definition currentUsername (extendedUser : value) : value :=
  coalesce (opt_field extendedUser (js "name")) (VString []).

(** [extendedUser?.given_name ?? ""] *)
Definition given_name (extendedUser : value) : value :=
  coalesce (opt_field extendedUser (js "given_name")) (VString []).

(** [given_name || currentUsername || "Sara"] *)
Definition displayName (extendedUser : value) : value :=
  or_else (or_else (given_name extendedUser) (currentUsername extendedUser))
          (VString (js "Sara")).

(** The component, given what [useUser] returned. *)
Definition WhoAmI (hook : HookState) : node :=
  if isLoading hook
  then Elem (js "div") [Text (js "Loading...")]
  else Elem (js "div") [Text (js "Hello "); Expr (displayName (user hook))].

End WhoAmI.

(* ------------------------------------------------------------------ *)
(** ** src/app/standalone-extension/page: the two effects *)

Module StandalonePage.

Import SitecoreDictionary.

(** [useState<ApplicationContext>()] and [useState<DictionaryItem[]>()]:
    both cells start undefined. *)
Record PageState : Type := mkPage
  { appContext : value;
    appDictionaryItems : option (list DictionaryItem) }.

Definition initial : PageState :=
  {| appContext := VUndefined; appDictionaryItems := None |}.

Inductive page_event : Type :=
| PEffect (e : event)
| SetAppContext (data : value)
| SetAppDictionaryItems (items : list DictionaryItem).

Definition isPageSdkCall (p : page_event) : bool :=
  match p with
  | PEffect e => isSdkCall e
  | _ => false
  end.

Definition apply_event (st : PageState) (p : page_event) : PageState :=
  match p with
  | PEffect _ => st
  | SetAppContext data =>
    {| appContext := data; appDictionaryItems := appDictionaryItems st |}
  | SetAppDictionaryItems items =>
    {| appContext := appContext st; appDictionaryItems := Some items |}
  end.

(** The error field of [useMarketplaceClient]: undefined ([None]) or
    whatever initialisation failed with.  The page reads its truthiness
    only; an instance of Error is an object, hence truthy. *)
Definition isTruthyError (error : option thrown) : bool :=
  match error with
  | None => false
  | Some TypeError => true
  | Some (ErrorObject _) => true
  | Some (Thrown v) => truthy v
  end.

(** The first effect: [if (!error && isInitialized && client) { ... }
    else if (error) { ... }].  The [.then] callback reads [res.data]
    before it logs, and a raise in it lands in [.catch], which logs the
    reason without converting it.  [client.query] is taken to hand back a
    promise, as its type says: nothing here catches a call that raises at
    once. *)
Definition contextEffect (client : option ClientSDK) (error : option thrown)
           (isInitialized : bool) : list page_event :=
  match (if negb (isTruthyError error) && isInitialized then client else None) with
  | Some c =>
    let chain :=
        tryCatch
          (res <- client_query c (js "application.context") ;;
           data <- member res (js "data") ;;
           console LLog (js "Success retrieving application.context:") ;;
           ret (Some data))
          (fun error =>
             console LError (js "Error retrieving application.context:") ;;
             ret None) in
    map PEffect (trace chain)
    ++ match outcome chain with
       | Normal (Some data) => [SetAppContext data]
       | _ => []
       end
  | None =>
    if isTruthyError error
    then [PEffect (Console LError (js "Error initializing Marketplace client:"))]
    else []
  end.

(** The path the page passes to the fetcher. *)
Definition dictionaryPath : jsstring :=
  js "/sitecore/content/ai/cadenceaiconversion/Dictionary/Demo".

Section DictionaryEffect.

Variable unicodeUpper : code_unit -> code_unit.

(** The second effect, [fetchSitecoreDictionary]. *)
Definition dictionaryEffect (client : option ClientSDK) (isInitialized : bool)
  : list page_event :=
  match client with
  | None => []
  | Some c =>
    if negb isInitialized then []
    else
      let fetched := fetchDictionaryItems unicodeUpper client dictionaryPath (js "en") in
      map PEffect (trace fetched)
      ++ match outcome fetched with
         | Normal dictionaryItems =>
           if (0 <? List.length dictionaryItems)%nat
           then [PEffect (Console LLog (js "Successfully fetched dictionary items:"));
                 SetAppDictionaryItems dictionaryItems;
                 PEffect (Console LLog (js "First dictionary item:"))]
           else [PEffect (Console LLog (js "No dictionary items found"));
                 SetAppDictionaryItems []]
         | Throw err =>
           [PEffect (Console LError (js "Error fetching dictionary items:"))]
         end
  end.

End DictionaryEffect.

End StandalonePage.

(* ------------------------------------------------------------------ *)
(** * Properties *)

(** ** Strings *)

Module StringFacts.

Lemma str_eqb_eq (s t : jsstring) : str_eqb s t = true <-> s = t.
Proof.
  revert t; induction s as [|a s IH]; intros [|b t]; simpl; split; intro H;
    try reflexivity; try discriminate.
  - apply andb_true_iff in H as [Hab Hst].
    apply N.eqb_eq in Hab. apply IH in Hst. now subst.
  - injection H as -> ->. now rewrite N.eqb_refl, (proj2 (IH t)).
Qed.

Lemma In_units_between (lo hi c : code_unit) :
  In c (units_between lo hi) <-> lo <= c <= hi.
Proof.
  unfold units_between. rewrite in_map_iff. split.
  - intros (n & <- & Hn). apply in_seq in Hn. lia.
  - intros Hc. exists (N.to_nat c). split; [apply N2Nat.id|]. apply in_seq. lia.
Qed.

Lemma existsb_eqb_In (c : code_unit) (l : list code_unit) :
  existsb (N.eqb c) l = true <-> In c l.
Proof.
  rewrite existsb_exists. split.
  - intros (x & Hx & Heq). apply N.eqb_eq in Heq. now subst.
  - intros Hc. exists c. split; [assumption | apply N.eqb_refl].
Qed.

Lemma trimStart_nil_iff (s : jsstring) :
  trimStart s = [] <-> forallb isWhiteSpace s = true.
Proof.
  induction s as [|c s IH]; simpl; [tauto|].
  destruct (isWhiteSpace c); simpl; [exact IH | split; discriminate].
Qed.

Lemma trim_nil_iff (s : jsstring) :
  trim s = [] <-> forallb isWhiteSpace s = true.
Proof.
  unfold trim, trimEnd. split.
  - intros H. apply trimStart_nil_iff.
    destruct (trimStart s) as [|c r] eqn:E; [reflexivity|].
    exfalso.
    assert (Hrev : trimStart (rev (c :: r)) = []).
    { apply (f_equal (@rev code_unit)) in H.
      now rewrite rev_involutive in H. }
    (* the first unit kept by trimStart is not white space *)
    assert (Hc : isWhiteSpace c = false).
    { clear -E. induction s as [|a s IH]; simpl in E; [discriminate|].
      destruct (isWhiteSpace a) eqn:Ha; [auto | now injection E as -> _]. }
    apply trimStart_nil_iff in Hrev. rewrite forallb_forall in Hrev.
    specialize (Hrev c). rewrite <- in_rev in Hrev.
    rewrite Hrev in Hc; [discriminate | now left].
  - intros H. apply trimStart_nil_iff in H. now rewrite H.
Qed.

End StringFacts.

(** ** Regular expressions: the matcher decides the declarative reading *)

Module RegExpFacts.

Import RegExp StringFacts.

Section Correctness.

Variable up : code_unit -> code_unit.
Variable ic : bool.

Local Abbreviation Matches := (Matches up ic).
Local Abbreviation deriv := (deriv up ic).

Lemma Matches_nil_nullable (p : pattern) (s : jsstring) :
  Matches p s -> s = [] -> nullable p = true.
Proof.
  induction 1 as [ | cls ch H | p q s t _ IHp _ IHq | p q s _ IH | p q s _ IH
                   | p | p s t _ _ _ _ ]; intros Hs; simpl; try reflexivity.
  - discriminate.
  - apply app_eq_nil in Hs as [-> ->]. now rewrite IHp, IHq.
  - now rewrite IH.
  - rewrite IH by assumption. apply orb_true_r.
Qed.

Lemma nullable_Matches (p : pattern) :
  nullable p = true <-> Matches p [].
Proof.
  split; [|intros H; now apply (Matches_nil_nullable p [])].
  induction p as [ | | cls | p IHp q IHq | p IHp q IHq | p _ ]; simpl; intros H;
    try discriminate.
  - constructor.
  - apply andb_true_iff in H as [Hp Hq].
    change (@nil code_unit) with (@nil code_unit ++ []). constructor; auto.
  - apply orb_true_iff in H as [Hp | Hq]; [apply MAltL | apply MAltR]; auto.
  - constructor.
Qed.

Lemma deriv_sound (ch : code_unit) (p : pattern) :
  forall s, Matches (deriv ch p) s -> Matches p (ch :: s).
Proof.
  induction p as [ | | cls | p IHp q IHq | p IHp q IHq | p IHp ]; simpl; intros s H.
  - inversion H.
  - inversion H.
  - destruct (class_matches up ic cls ch) eqn:E; inversion H; subst.
    now constructor.
  - assert (Hseq : forall w, Matches (Seq (deriv ch p) q) w -> Matches (Seq p q) (ch :: w)).
    { intros w Hw. inversion Hw; subst.
      change (ch :: s0 ++ t) with ((ch :: s0) ++ t). constructor; auto. }
    destruct (nullable p) eqn:Enull; [|now apply Hseq].
    inversion H; subst; [now apply Hseq|].
    change (ch :: s) with ([] ++ ch :: s). constructor; [|auto].
    now apply nullable_Matches.
  - inversion H; subst; [apply MAltL | apply MAltR]; auto.
  - inversion H; subst.
    change (ch :: s0 ++ t) with ((ch :: s0) ++ t). constructor; auto.
Qed.

Lemma deriv_complete (ch : code_unit) (p : pattern) (w : jsstring) :
  Matches p w -> forall s, w = ch :: s -> Matches (deriv ch p) s.
Proof.
  induction 1 as [ | cls c H | p q s1 t Hp IHp Hq IHq | p q s1 Hp IH | p q s1 Hq IH
                   | p | p s1 t Hp IHp Hs IHs ]; intros s Hw; simpl.
  - discriminate.
  - injection Hw as -> <-. rewrite H. constructor.
  - destruct s1 as [|c s1]; simpl in Hw.
    + rewrite (Matches_nil_nullable p [] Hp eq_refl). apply MAltR. auto.
    + injection Hw as -> <-.
      assert (Matches (Seq (deriv ch p) q) (s1 ++ t)) by (constructor; auto).
      destruct (nullable p); [now apply MAltL | assumption].
  - apply MAltL; auto.
  - apply MAltR; auto.
  - discriminate.
  - destruct s1 as [|c s1]; simpl in Hw.
    + apply (IHs s Hw).
    + injection Hw as -> <-. constructor; auto.
Qed.

Lemma deriv_Matches (ch : code_unit) (p : pattern) (s : jsstring) :
  Matches (deriv ch p) s <-> Matches p (ch :: s).
Proof.
  split; [apply deriv_sound | intros H; now apply (deriv_complete ch p (ch :: s))].
Qed.

(** The derivative matcher decides the declarative reading. *)
Lemma matches_whole_Matches (s : jsstring) :
  forall p, matches_whole up ic p s = true <-> Matches p s.
Proof.
  induction s as [|ch s IH]; intros p; simpl.
  - apply nullable_Matches.
  - rewrite IH. apply deriv_Matches.
Qed.

(** *** Inversion of the compound patterns *)

Lemma Matches_Empty (s : jsstring) : Matches Empty s <-> s = [].
Proof. split; [now inversion 1 | intros ->; constructor]. Qed.

Lemma Matches_Chars (cls : list class_atom) (s : jsstring) :
  Matches (Chars cls) s <-> exists ch, s = [ch] /\ class_matches up ic cls ch = true.
Proof.
  split.
  - inversion 1; subst. eauto.
  - intros (ch & -> & H). now constructor.
Qed.

Lemma Matches_Seq (p q : pattern) (s : jsstring) :
  Matches (Seq p q) s <-> exists s1 s2, s = s1 ++ s2 /\ Matches p s1 /\ Matches q s2.
Proof.
  split.
  - inversion 1; subst. eauto.
  - intros (s1 & s2 & -> & H1 & H2). now constructor.
Qed.

Lemma Matches_Alt (p q : pattern) (s : jsstring) :
  Matches (Alt p q) s <-> Matches p s \/ Matches q s.
Proof.
  split.
  - inversion 1; subst; auto.
  - intros [H | H]; [now apply MAltL | now apply MAltR].
Qed.

Lemma Matches_Opt (p : pattern) (s : jsstring) :
  Matches (Opt p) s <-> Matches p s \/ s = [].
Proof. unfold Opt. now rewrite Matches_Alt, Matches_Empty. Qed.

Lemma Matches_Star_Chars (cls : list class_atom) (s : jsstring) :
  Matches (Star (Chars cls)) s <-> forallb (class_matches up ic cls) s = true.
Proof.
  split.
  - intros H. remember (Star (Chars cls)) as p eqn:Ep.
    induction H as [ | | | | | p | p s t Hp _ Hs IHs ]; try discriminate.
    + reflexivity.
    + injection Ep as ->. apply Matches_Chars in Hp as (ch & -> & Hch).
      simpl. rewrite Hch. now apply IHs.
  - induction s as [|ch s IH]; simpl; intros H; [constructor|].
    apply andb_true_iff in H as [Hch Hs].
    change (ch :: s) with ([ch] ++ s). constructor; [now constructor | auto].
Qed.

Lemma Matches_Plus_Chars (cls : list class_atom) (s : jsstring) :
  Matches (Plus (Chars cls)) s <->
  s <> [] /\ forallb (class_matches up ic cls) s = true.
Proof.
  unfold Plus. rewrite Matches_Seq. split.
  - intros (s1 & s2 & -> & H1 & H2).
    apply Matches_Chars in H1 as (ch & -> & Hch).
    apply Matches_Star_Chars in H2. simpl. rewrite Hch, H2. split; [discriminate | reflexivity].
  - intros [Hne H]. destruct s as [|ch s]; [contradiction|].
    simpl in H. apply andb_true_iff in H as [Hch Hs].
    exists [ch], s. repeat split.
    + apply Matches_Chars; eauto.
    + now apply Matches_Star_Chars.
Qed.

End Correctness.

(** *** The character classes of the two validators *)

Section Classes.

Variable up : code_unit -> code_unit.

Lemma class_matches_exact (cls : list class_atom) (ch : code_unit) :
  class_matches up false cls ch = true <-> In ch (class_units cls).
Proof.
  unfold class_matches, canonicalize. rewrite existsb_exists. split.
  - intros (a & Ha & Heq). apply N.eqb_eq in Heq. now subst.
  - intros H. exists ch. split; [assumption | apply N.eqb_refl].
Qed.

Lemma Matches_Lit (l s : jsstring) :
  Matches up false (Lit l) s <-> s = l.
Proof.
  revert s; induction l as [|c l IH]; intros s; simpl.
  - apply Matches_Empty.
  - rewrite Matches_Seq. split.
    + intros (s1 & s2 & -> & H1 & H2).
      apply Matches_Chars in H1 as (ch & -> & Hch).
      apply class_matches_exact in Hch. simpl in Hch.
      destruct Hch as [<- | []]. apply IH in H2. now subst.
    + intros ->. exists [c], l. repeat split.
      * apply Matches_Chars. exists c. split; [reflexivity|].
        apply class_matches_exact. now left.
      * now apply IH.
Qed.

Lemma path_class (ch : code_unit) :
  class_matches up false
    [ClassWord; ClassSpace; ClassChar (chr "-"); ClassChar (chr "/")] ch
  = Spec.isPathChar ch.
Proof.
  apply eq_iff_eq_true. rewrite class_matches_exact.
  unfold class_units, Spec.isPathChar, Spec.isWordChar, Spec.isLetter, Spec.between,
    isWhiteSpace; cbn [flat_map atom_units]. unfold word_units.
  rewrite !in_app_iff, !In_units_between, !orb_true_iff, !andb_true_iff,
    !N.leb_le, !N.eqb_eq, existsb_eqb_In.
  simpl In. unfold chr; simpl N_of_ascii. intuition lia.
Qed.

Lemma canonicalize_upper_letter (ch : code_unit) :
  (chr "A" <= canonicalize up true ch <= chr "Z") <-> Spec.isLetter ch = true.
Proof.
  unfold canonicalize, asciiUpper, Spec.isLetter, Spec.between, chr; simpl N_of_ascii.
  rewrite orb_true_iff, !andb_true_iff, !N.leb_le.
  destruct (ch <? 128) eqn:E1; [apply N.ltb_lt in E1 | apply N.ltb_ge in E1].
  - destruct ((97 <=? ch) && (ch <=? 122)) eqn:E2.
    + apply andb_true_iff in E2 as [H1 H2]. apply N.leb_le in H1, H2. lia.
    + apply andb_false_iff in E2 as [H | H]; apply N.leb_gt in H; lia.
  - destruct (up ch <? 128) eqn:E2; [apply N.ltb_lt in E2 | apply N.ltb_ge in E2]; lia.
Qed.

Lemma letter_class (ch : code_unit) :
  class_matches up true [ClassRange (chr "a") (chr "z")] ch = Spec.isLetter ch.
Proof.
  apply eq_iff_eq_true. rewrite <- canonicalize_upper_letter.
  unfold class_matches, class_units; cbn [flat_map atom_units]. rewrite app_nil_r.
  rewrite existsb_exists. split.
  - intros (a & Ha & Heq). apply N.eqb_eq in Heq. rewrite <- Heq.
    apply canonicalize_upper_letter. apply In_units_between in Ha.
    unfold Spec.isLetter, Spec.between. apply orb_true_iff. left.
    apply andb_true_iff. split; apply N.leb_le; lia.
  - intros H. exists (canonicalize up true ch + 32). split.
    + apply In_units_between. unfold chr in *; simpl N_of_ascii in *. lia.
    + apply N.eqb_eq.
      unfold chr in H; simpl N_of_ascii in H.
      set (k := canonicalize up true ch) in *.
      unfold canonicalize, asciiUpper, chr; simpl N_of_ascii.
      replace (k + 32 <? 128) with true by (symmetry; apply N.ltb_lt; lia).
      replace ((97 <=? k + 32) && (k + 32 <=? 122)) with true; [lia|].
      symmetry. apply andb_true_iff. split; apply N.leb_le; lia.
Qed.

End Classes.

End RegExpFacts.

(** ** The validators compute the specification's reading *)

Module ValidatorFacts.

Import RegExp RegExpFacts StringFacts SitecoreDictionary.

Section Validators.

Variable up : code_unit -> code_unit.

Lemma strip_prefix_Some (prefix s rest : jsstring) :
  Spec.strip_prefix prefix s = Some rest <-> s = prefix ++ rest.
Proof.
  revert s; induction prefix as [|a prefix IH]; intros s; simpl.
  - split; [now intros [= ->] | now intros ->].
  - destruct s as [|b s]; [split; discriminate|].
    destruct (a =? b) eqn:E.
    + apply N.eqb_eq in E as ->. rewrite IH. split; [now intros -> | now intros [= ->]].
    + apply N.eqb_neq in E. split; [discriminate | intros [= -> _]; contradiction].
Qed.

Lemma isValidSitecorePath_Matches (path : jsstring) :
  isValidSitecorePath up path = true <->
  Matches up false (body sitecorePathRegExp) path.
Proof. apply matches_whole_Matches. Qed.

Lemma isValidLanguageCode_Matches (language : jsstring) :
  isValidLanguageCode up language = true <->
  Matches up true (body languageCodeRegExp) language.
Proof. apply matches_whole_Matches. Qed.

Lemma forallb_path_class (s : jsstring) :
  forallb (class_matches up false
             [ClassWord; ClassSpace; ClassChar (chr "-"); ClassChar (chr "/")]) s
  = forallb Spec.isPathChar s.
Proof. induction s as [|c s IH]; cbn [forallb]; [reflexivity | now rewrite path_class, IH]. Qed.

(** The path validator computes the specification's reading. *)
Lemma isValidSitecorePath_spec (path : jsstring) :
  isValidSitecorePath up path = Spec.path_ok path.
Proof.
  apply eq_iff_eq_true. rewrite isValidSitecorePath_Matches.
  unfold sitecorePathRegExp, body, Spec.path_ok. rewrite Matches_Seq. split.
  - intros (s1 & s2 & -> & H1 & H2).
    apply Matches_Lit in H1 as ->. apply Matches_Plus_Chars in H2 as [Hne Hall].
    rewrite (proj2 (strip_prefix_Some _ _ s2) eq_refl).
    rewrite forallb_path_class in Hall. rewrite Hall.
    destruct s2; [contradiction | reflexivity].
  - destruct (Spec.strip_prefix (js "/sitecore/") path) as [rest|] eqn:E; [|discriminate].
    apply strip_prefix_Some in E as ->. intros H.
    apply andb_true_iff in H as [Hne Hall].
    exists (js "/sitecore/"), rest. repeat split.
    + now apply Matches_Lit.
    + apply Matches_Plus_Chars. rewrite forallb_path_class. split; [|assumption].
      intros ->. discriminate.
Qed.

Lemma hyphen_class (ch : code_unit) :
  class_matches up true [ClassChar (chr "-")] ch = (ch =? chr "-").
Proof.
  unfold class_matches, class_units; cbn [flat_map atom_units app existsb].
  rewrite orb_false_r. apply eq_iff_eq_true. rewrite !N.eqb_eq.
  change (canonicalize up true (chr "-")) with 45.
  unfold canonicalize, asciiUpper, chr; simpl N_of_ascii.
  destruct (ch <? 128) eqn:E1; [apply N.ltb_lt in E1 | apply N.ltb_ge in E1].
  - destruct ((97 <=? ch) && (ch <=? 122)) eqn:E2; [|split; congruence].
    apply andb_true_iff in E2 as [H1 H2]. apply N.leb_le in H1, H2. lia.
  - destruct (up ch <? 128) eqn:E2; [apply N.ltb_lt in E2 | apply N.ltb_ge in E2]; lia.
Qed.

Local Abbreviation letters := (Chars [ClassRange (chr "a") (chr "z")]).

Lemma Matches_letter (s : jsstring) :
  Matches up true letters s <-> exists c, s = [c] /\ Spec.isLetter c = true.
Proof.
  rewrite Matches_Chars. split; intros (c & -> & H); exists c; split; auto.
  - now rewrite <- (letter_class up).
  - now rewrite letter_class.
Qed.

Lemma Matches_hyphen (s : jsstring) :
  Matches up true (Chars [ClassChar (chr "-")]) s <-> s = [chr "-"].
Proof.
  rewrite Matches_Chars. split.
  - intros (c & -> & H). rewrite hyphen_class in H. apply N.eqb_eq in H. now subst.
  - intros ->. exists (chr "-"). split; [reflexivity | now rewrite hyphen_class].
Qed.

Lemma Matches_two_letters (s : jsstring) :
  Matches up true (Repeat 2 2 letters) s <->
  exists a b, s = [a; b] /\ Spec.isLetter a = true /\ Spec.isLetter b = true.
Proof.
  cbn [Repeat]. rewrite Matches_Seq. split.
  - intros (s1 & s2 & -> & H1 & H2).
    apply Matches_letter in H1 as (a & -> & Ha).
    apply Matches_Seq in H2 as (t1 & t2 & -> & H2 & H3).
    apply Matches_letter in H2 as (b & -> & Hb).
    apply Matches_Empty in H3 as ->. exists a, b. auto.
  - intros (a & b & -> & Ha & Hb). exists [a], [b]. repeat split.
    + apply Matches_letter; eauto.
    + apply Matches_Seq. exists [b], []. repeat split.
      * apply Matches_letter; eauto.
      * now apply Matches_Empty.
Qed.

Lemma Matches_region (s : jsstring) :
  Matches up true (Repeat 2 3 letters) s <->
  exists a b rest, s = a :: b :: rest /\ Spec.isLetter a = true /\ Spec.isLetter b = true
    /\ (rest = [] \/ exists c, rest = [c] /\ Spec.isLetter c = true).
Proof.
  cbn [Repeat]. rewrite Matches_Seq. split.
  - intros (s1 & s2 & -> & H1 & H2).
    apply Matches_letter in H1 as (a & -> & Ha).
    apply Matches_Seq in H2 as (t1 & t2 & -> & H2 & H3).
    apply Matches_letter in H2 as (b & -> & Hb).
    exists a, b, t2. repeat split; auto.
    apply Matches_Opt in H3 as [H3 | ->]; [right | now left].
    apply Matches_Seq in H3 as (u1 & u2 & -> & H3 & H4).
    apply Matches_letter in H3 as (c & -> & Hc).
    apply Matches_Empty in H4 as ->. exists c. now split.
  - intros (a & b & rest & -> & Ha & Hb & Hrest). exists [a], (b :: rest). repeat split.
    + apply Matches_letter; eauto.
    + apply Matches_Seq. exists [b], rest. repeat split.
      * apply Matches_letter; eauto.
      * apply Matches_Opt. destruct Hrest as [-> | (c & -> & Hc)]; [now right | left].
        apply Matches_Seq. exists [c], []. repeat split.
        -- apply Matches_letter; eauto.
        -- now apply Matches_Empty.
Qed.

(** The language validator computes the specification's reading. *)
Lemma isValidLanguageCode_spec (language : jsstring) :
  isValidLanguageCode up language = Spec.language_ok language.
Proof.
  apply eq_iff_eq_true. rewrite isValidLanguageCode_Matches.
  unfold languageCodeRegExp, body. rewrite Matches_Seq. split.
  - intros (s1 & s2 & -> & H1 & H2).
    apply Matches_two_letters in H1 as (a & b & -> & Ha & Hb).
    apply Matches_Opt in H2 as [H2 | ->]; [|simpl; now rewrite Ha, Hb].
    apply Matches_Seq in H2 as (t1 & t2 & -> & H2 & H3).
    apply Matches_hyphen in H2 as ->.
    apply Matches_region in H3 as (c & d & rest & -> & Hc & Hd & Hrest).
    destruct Hrest as [-> | (e & -> & He)]; simpl;
      rewrite Ha, Hb, Hc, Hd, ?He; reflexivity.
  - intros H.
    destruct language as [|a [|b [|h [|c [|d [|e [|f l]]]]]]]; simpl in H;
      try discriminate;
      repeat (apply andb_true_iff in H; let H' := fresh "H" in destruct H as [H H']).
    + exists [a; b], []. repeat split.
      * apply Matches_two_letters. exists a, b. auto.
      * apply Matches_Opt. now right.
    + apply N.eqb_eq in H2 as ->. exists [a; b], [chr "-"; c; d]. repeat split.
      * apply Matches_two_letters. exists a, b. auto.
      * apply Matches_Opt. left. apply Matches_Seq. exists [chr "-"], [c; d]. repeat split.
        -- now apply Matches_hyphen.
        -- apply Matches_region. exists c, d, []. auto.
    + apply N.eqb_eq in H3 as ->. exists [a; b], [chr "-"; c; d; e]. repeat split.
      * apply Matches_two_letters. exists a, b. auto.
      * apply Matches_Opt. left. apply Matches_Seq. exists [chr "-"], [c; d; e]. repeat split.
        -- now apply Matches_hyphen.
        -- apply Matches_region. exists c, d, [e]. repeat split; eauto.
Qed.

(** *** The defaults pass validation, and a few sample inputs *)

Lemma default_arguments_valid :
  isValidSitecorePath up DEFAULT_DICTIONARY_PATH = true
  /\ isValidLanguageCode up DEFAULT_LANGUAGE = true.
Proof.
  now rewrite isValidSitecorePath_spec, isValidLanguageCode_spec.
Qed.

Example language_samples :
  map (fun text => isValidLanguageCode up (js text))
      ["en"; "EN"; "fr-CA"; "en-usa"; "e"; "eng"; "en-"; "en-u"; "zh-Hant"; "e1"]%string
  = [true; true; true; true; false; false; false; false; false; false].
Proof.
  cbn [map]. now rewrite !isValidLanguageCode_spec.
Qed.

Example path_samples :
  map (fun text => isValidSitecorePath up (js text))
      ["/sitecore/content/Home"; "/sitecore/a b-c/d_9"; "/sitecore/";
       "/sitecore/a.b"; "x/sitecore/a"; "/Sitecore/a"]%string
  = [true; true; false; false; false; false].
Proof.
  cbn [map]. now rewrite !isValidSitecorePath_spec.
Qed.

Example trim_sample : trim (js "  Hello ") = js "Hello".
Proof. reflexivity. Qed.

End Validators.

End ValidatorFacts.

(** ** The dictionary module, read by results *)

Module DictionaryFacts.

Import RegExp StringFacts ValidatorFacts SitecoreDictionary Readings.

Lemma getErrorMessage_run (e : thrown) :
  trace (getErrorMessage e) = []
  /\ (printable e = false -> outcome (getErrorMessage e) = Throw TypeError).
Proof.
  unfold printable. destruct e as [ | message | v]; cbn [getErrorMessage];
    try (split; [reflexivity | discriminate]).
  destruct (ToString v); split; try reflexivity; discriminate.
Qed.

(** Every [catch] block of the module logs [getErrorMessage(error)] and
    returns a fixed value. *)
Lemma tryCatch_logged {A} (m : Async A) (lvl : level) (msg : jsstring) (a : A) :
  tryCatch m (fun error => message <- getErrorMessage error ;; console lvl msg ;; ret a)
  = (trace m ++ match outcome m with
                | Normal _ => []
                | Throw e => if printable e then [Console lvl msg] else []
                end,
     caught a (outcome m)).
Proof.
  destruct m as [t [x | e]]; cbn [tryCatch trace outcome fst snd caught];
    [now rewrite app_nil_r|].
  unfold printable.
  destruct e as [ | message | v]; cbn [getErrorMessage]; try reflexivity.
  destruct (ToString v); reflexivity.
Qed.

Lemma outcome_tryCatch_logged {A} (m : Async A) (lvl : level) (msg : jsstring) (a : A) :
  outcome (tryCatch m (fun error => message <- getErrorMessage error ;; console lvl msg ;; ret a))
  = caught a (outcome m).
Proof. now rewrite tryCatch_logged. Qed.

Lemma outcome_bind {A B} (m : Async A) (f : A -> Async B) :
  outcome (bind m f) =
  match outcome m with
  | Normal a => outcome (f a)
  | Throw e => Throw e
  end.
Proof. destruct m as [t [a | e]]; simpl; [destruct (f a) |]; reflexivity. Qed.

Lemma trace_bind {A B} (m : Async A) (f : A -> Async B) :
  trace (bind m f) =
  match outcome m with
  | Normal a => trace m ++ trace (f a)
  | Throw e => trace m
  end.
Proof. destruct m as [t [a | e]]; simpl; [destruct (f a) |]; reflexivity. Qed.

Lemma bind_ret_l {A B} (a : A) (f : A -> Async B) : bind (ret a) f = f a.
Proof. unfold bind, ret. now destruct (f a). Qed.

Lemma outcome_client_query (c : ClientSDK) (name : jsstring) :
  outcome (client_query c name) =
  match query c name with
  | Resolved v => Normal v
  | Rejected e => Throw e
  end.
Proof. unfold client_query. rewrite outcome_bind. simpl. now destruct (query c name). Qed.

Lemma outcome_client_mutate (c : ClientSDK) (name : jsstring) (params : value) :
  outcome (client_mutate c name params) =
  match mutate c name params with
  | Resolved v => Normal v
  | Rejected e => Throw e
  end.
Proof. unfold client_mutate. rewrite outcome_bind. simpl. now destruct (mutate c name params). Qed.

(** *** The context resolver *)

Lemma getApplicationContext_outcome (client : option ClientSDK) :
  outcome (getApplicationContext client) =
  match client with
  | None => Normal VNull
  | Some c =>
    match query c (js "application.context") with
    | Resolved r => Normal (coalesce (opt_field r (js "data")) VNull)
    | Rejected e => caught VNull (Throw e)
    end
  end.
Proof.
  destruct client as [c|]; [|reflexivity].
  unfold getApplicationContext. rewrite outcome_tryCatch_logged, outcome_bind, outcome_client_query.
  now destruct (query c (js "application.context")).
Qed.

Lemma preview_of_falsy (ctx : value) :
  truthy ctx = false -> preview_of ctx = VUndefined.
Proof. destruct ctx; try reflexivity; discriminate. Qed.

Lemma getPreviewContextId_outcome (client : option ClientSDK) (ctx : value) :
  outcome (getApplicationContext client) = Normal ctx ->
  outcome (getPreviewContextId client) =
  Normal (if isString (preview_of ctx) then preview_of ctx else VNull).
Proof.
  intros Hctx. destruct client as [c|].
  - unfold getPreviewContextId.
    rewrite outcome_tryCatch_logged, outcome_bind, Hctx.
    destruct (truthy ctx) eqn:Et; cbn [negb].
    + destruct (isString (preview_of ctx)) eqn:Es; cbn [negb]; [reflexivity|].
      now rewrite outcome_bind.
    + now rewrite (preview_of_falsy ctx Et).
  - injection Hctx as <-. reflexivity.
Qed.

(** The resolver never raises: what its own [catch] can receive is the
    TypeError of a failed message extraction, whose message extracts. *)
Lemma getPreviewContextId_value (c : ClientSDK) :
  outcome (getPreviewContextId (Some c)) = Normal (preview_id_of c).
Proof.
  pose proof (getApplicationContext_outcome (Some c)) as Hctx. cbv beta iota in Hctx.
  unfold preview_id_of, context_of.
  destruct (query c (js "application.context")) as [r | e].
  - now apply getPreviewContextId_outcome.
  - unfold caught in Hctx. destruct (printable e).
    + now apply getPreviewContextId_outcome.
    + unfold getPreviewContextId. now rewrite outcome_tryCatch_logged, outcome_bind, Hctx.
Qed.

Lemma getPreviewContextId_returns (client : option ClientSDK) :
  exists id, outcome (getPreviewContextId client) = Normal id.
Proof.
  destruct client as [c|]; [|now exists VNull].
  eexists. apply getPreviewContextId_value.
Qed.

(** *** The map/filter chain *)




(** *** The response guard *)

Lemma process_response_not_array (response : value) :
  isArray (results_of response) = false ->
  process_response response =
  ([Console LLog (js "GraphQL Response:");
    Console LWarn (js "No dictionary items found at path:")], Normal []).
Proof.
  intros H. unfold process_response.
  rewrite H, orb_true_r. reflexivity.
Qed.

Lemma process_response_empty (response : value) :
  results_of response = VArray [] ->
  process_response response =
  ([Console LLog (js "GraphQL Response:");
    Console LWarn (js "Dictionary folder is empty at path:")], Normal []).
Proof. intros H. unfold process_response. rewrite H. reflexivity. Qed.


(** *** What the chain can raise *)

Lemma to_item_raises (r : value) (e : thrown) :
  outcome (to_item r) = Throw e -> e = TypeError.
Proof.
  unfold to_item, member. destruct (nullish r).
  - cbn [raise bind outcome snd]. now intros [= <-].
  - rewrite !bind_ret_l, outcome_bind.
    match goal with |- context [if ?b then _ else _] => destruct b end; discriminate.
Qed.

Lemma has_phrase_raises (item : DictionaryItem) (e : thrown) :
  outcome (has_phrase item) = Throw e -> e = TypeError.
Proof.
  unfold has_phrase, call_trim.
  destruct (phrase item) as [ | | | | s | | ];
    try (cbn [raise bind outcome snd]; now intros [= <-]).
Qed.

Lemma mapM_raises {A B} (f : A -> Async B) :
  (forall a e, outcome (f a) = Throw e -> e = TypeError) ->
  forall l e, outcome (mapM f l) = Throw e -> e = TypeError.
Proof.
  intros Hf. induction l as [|a l IH]; cbn [mapM]; intros e; [discriminate|].
  rewrite outcome_bind. destruct (outcome (f a)) eqn:Ea.
  - rewrite outcome_bind. destruct (outcome (mapM f l)) eqn:El; [discriminate|].
    intros [= <-]. now apply IH.
  - intros [= <-]. now apply (Hf a).
Qed.

Lemma filterM_raises {A} (f : A -> Async bool) :
  (forall a e, outcome (f a) = Throw e -> e = TypeError) ->
  forall l e, outcome (filterM f l) = Throw e -> e = TypeError.
Proof.
  intros Hf. induction l as [|a l IH]; cbn [filterM]; intros e; [discriminate|].
  rewrite outcome_bind. destruct (outcome (f a)) eqn:Ea.
  - rewrite outcome_bind. destruct (outcome (filterM f l)) eqn:El; [discriminate|].
    intros [= <-]. now apply IH.
  - intros [= <-]. now apply (Hf a).
Qed.

Lemma process_response_raises (response : value) (e : thrown) :
  outcome (process_response response) = Throw e -> e = TypeError.
Proof.
  unfold process_response. rewrite outcome_bind. cbn [console outcome snd].
  destruct (negb (truthy (results_of response)) || negb (isArray (results_of response)));
    [rewrite outcome_bind; discriminate|].
  destruct (List.length (elements (results_of response)) =? 0)%nat;
    [rewrite outcome_bind; discriminate|].
  rewrite outcome_bind.
  destruct (outcome (mapM to_item (elements (results_of response)))) as [items | e'] eqn:Em.
  - apply (filterM_raises has_phrase has_phrase_raises).
  - intros [= <-]. exact (mapM_raises to_item to_item_raises _ _ Em).
Qed.

(** A TypeError is an instance of Error: its message extracts. *)
Lemma caught_TypeError {A} (a : A) (c : completion A) :
  (forall e, c = Throw e -> e = TypeError) -> caught a c = recover a c.
Proof.
  destruct c as [x | e]; [reflexivity|]. intros H. now rewrite (H e eq_refl).
Qed.

(** *** The fetcher, read by its result *)

Section Fetch.

Variable up : code_unit -> code_unit.

Lemma fetch_body_outcome (c : ClientSDK) (path lang : jsstring) (id : value) :
  outcome (getPreviewContextId (Some c)) = Normal id ->
  outcome (fetch_body c path lang) =
  if truthy id then
    match mutate c (js "xmc.preview.graphql")
                 (graphql_params id (graphql_query path lang)) with
    | Resolved response => outcome (process_response response)
    | Rejected e => Throw e
    end
  else Normal [].
Proof.
  intros Hid. unfold fetch_body. rewrite outcome_bind, Hid, outcome_bind.
  cbn [console outcome snd].
  destruct (truthy id); cbn [negb]; [|now rewrite outcome_bind].
  rewrite outcome_bind. cbn [console outcome snd].
  rewrite outcome_bind, outcome_client_mutate.
  now destruct (mutate c _ _).
Qed.

Lemma fetchDictionaryItems_outcome (c : ClientSDK) (path lang : jsstring) :
  outcome (fetchDictionaryItems up (Some c) path lang) =
  if isValidSitecorePath up path && isValidLanguageCode up lang
  then caught [] (outcome (fetch_body c path lang))
  else Normal [].
Proof.
  unfold fetchDictionaryItems.
  destruct (isValidSitecorePath up path); cbn [negb andb]; [|now rewrite outcome_bind].
  destruct (isValidLanguageCode up lang); cbn [negb]; [|now rewrite outcome_bind].
  apply outcome_tryCatch_logged.
Qed.

(** Once the inputs are valid, the preview id is in hand and the
    GraphQL call resolved, the result is read off [process_response]. *)
Lemma fetchDictionaryItems_resolved (c : ClientSDK) (path lang : jsstring)
      (id response : value) :
  isValidSitecorePath up path = true ->
  isValidLanguageCode up lang = true ->
  outcome (getPreviewContextId (Some c)) = Normal id ->
  truthy id = true ->
  mutate c (js "xmc.preview.graphql") (graphql_params id (graphql_query path lang))
    = Resolved response ->
  outcome (fetchDictionaryItems up (Some c) path lang)
  = recover [] (outcome (process_response response)).
Proof.
  intros Hp Hl Hid Ht Hm.
  rewrite fetchDictionaryItems_outcome, Hp, Hl, (fetch_body_outcome c path lang id Hid), Ht, Hm.
  apply caught_TypeError, process_response_raises.
Qed.

End Fetch.

End DictionaryFacts.

(* ------------------------------------------------------------------ *)
(** * The claims of the specification *)

Import RegExp StringFacts RegExpFacts ValidatorFacts DictionaryFacts SitecoreDictionary Examples.
Import Readings.

(** *** Failure paths of the fetcher *)

Section FailurePaths.

Variable up : code_unit -> code_unit.
Variables (path lang : jsstring).

Lemma fetch_missing_preview_id (c : ClientSDK) (id : value) :
  outcome (getPreviewContextId (Some c)) = Normal id ->
  truthy id = false ->
  outcome (fetchDictionaryItems up (Some c) path lang) = Normal [].
Proof.
  intros Hid Ht. rewrite fetchDictionaryItems_outcome.
  rewrite (fetch_body_outcome c path lang id Hid), Ht. now destruct (_ && _).
Qed.

Lemma fetch_query_rejected (c : ClientSDK) (e : thrown) :
  query c (js "application.context") = Rejected e ->
  outcome (fetchDictionaryItems up (Some c) path lang) = Normal [].
Proof.
  intros Hq. apply (fetch_missing_preview_id c VNull); [|reflexivity].
  rewrite getPreviewContextId_value. unfold preview_id_of, context_of. now rewrite Hq.
Qed.

Lemma fetch_mutate_rejected (c : ClientSDK) (id : value) (e : thrown) :
  outcome (getPreviewContextId (Some c)) = Normal id ->
  mutate c (js "xmc.preview.graphql") (graphql_params id (graphql_query path lang))
    = Rejected e ->
  printable e = true ->
  outcome (fetchDictionaryItems up (Some c) path lang) = Normal [].
Proof.
  intros Hid Hm He. rewrite fetchDictionaryItems_outcome.
  rewrite (fetch_body_outcome c path lang id Hid), Hm.
  destruct (_ && _); [|reflexivity]. destruct (truthy id); [|reflexivity].
  cbn [caught]. now rewrite He.
Qed.

(** The one way out of the fetcher that is not a list: the mutation
    rejects with a reason whose message cannot be extracted, and the
    [catch] block raises in its turn. *)
Lemma fetch_mutate_rejected_unprintable (c : ClientSDK) (id : value) (e : thrown) :
  isValidSitecorePath up path = true ->
  isValidLanguageCode up lang = true ->
  outcome (getPreviewContextId (Some c)) = Normal id ->
  truthy id = true ->
  mutate c (js "xmc.preview.graphql") (graphql_params id (graphql_query path lang))
    = Rejected e ->
  printable e = false ->
  outcome (fetchDictionaryItems up (Some c) path lang) = Throw TypeError.
Proof.
  intros Hp Hl Hid Ht Hm He.
  rewrite fetchDictionaryItems_outcome, Hp, Hl, (fetch_body_outcome c path lang id Hid), Ht, Hm.
  cbn [andb caught]. now rewrite He.
Qed.

Lemma fetch_raises_only_in_catch (c : ClientSDK) (e : thrown) :
  outcome (fetchDictionaryItems up (Some c) path lang) = Throw e ->
  e = TypeError
  /\ isValidSitecorePath up path = true
  /\ isValidLanguageCode up lang = true
  /\ truthy (preview_id_of c) = true
  /\ exists reason,
      mutate c (js "xmc.preview.graphql")
             (graphql_params (preview_id_of c) (graphql_query path lang)) = Rejected reason
      /\ printable reason = false.
Proof.
  rewrite fetchDictionaryItems_outcome.
  rewrite (fetch_body_outcome c path lang _ (getPreviewContextId_value c)).
  destruct (isValidSitecorePath up path); [|discriminate].
  destruct (isValidLanguageCode up lang); [|discriminate]. cbn [andb].
  destruct (truthy (preview_id_of c)); [|discriminate].
  destruct (mutate c _ _) as [response | reason].
  - rewrite (caught_TypeError [] _ (process_response_raises response)).
    destruct (outcome (process_response response)); discriminate.
  - cbn [caught]. destruct (printable reason) eqn:Er; [discriminate|].
    intros [= <-]. repeat split. now exists reason.
Qed.

Lemma fetch_not_array (c : ClientSDK) (id response : value) :
  outcome (getPreviewContextId (Some c)) = Normal id ->
  mutate c (js "xmc.preview.graphql") (graphql_params id (graphql_query path lang))
    = Resolved response ->
  isArray (results_of response) = false ->
  outcome (fetchDictionaryItems up (Some c) path lang) = Normal [].
Proof.
  intros Hid Hm Hr. rewrite fetchDictionaryItems_outcome.
  rewrite (fetch_body_outcome c path lang id Hid), Hm.
  rewrite (process_response_not_array response Hr).
  destruct (_ && _); [|reflexivity]. now destruct (truthy id).
Qed.

Lemma fetch_body_throws (c : ClientSDK) (e : thrown) :
  outcome (fetch_body c path lang) = Throw e ->
  printable e = true ->
  outcome (fetchDictionaryItems up (Some c) path lang) = Normal [].
Proof.
  intros He Hprint. rewrite fetchDictionaryItems_outcome, He. cbn [caught].
  rewrite Hprint. now destruct (_ && _).
Qed.

End FailurePaths.

(** C1. The claim that [fetchDictionaryItems] never rejects fails on the
    code at one input: a client whose GraphQL mutation rejects with the
    plain object [{ toString: 0 }].  [String] raises a TypeError on that
    object, so [getErrorMessage] raises inside the [catch] block of the
    fetcher, and the fetcher, called with its default path and language,
    rejects with that TypeError instead of resolving to the empty list. *)
Theorem fetchDictionaryItems_rejects_in_catch (up : code_unit -> code_unit) :
  ToString unprintable_reason = None
  /\ outcome (getErrorMessage (Thrown unprintable_reason)) = Throw TypeError
  /\ mutate unprintable_graphql_client (js "xmc.preview.graphql")
            (graphql_params (VString (js "preview-1"))
                            (graphql_query DEFAULT_DICTIONARY_PATH DEFAULT_LANGUAGE))
     = Rejected (Thrown unprintable_reason)
  /\ outcome (fetchDictionaryItems up (Some unprintable_graphql_client)
                DEFAULT_DICTIONARY_PATH DEFAULT_LANGUAGE) = Throw TypeError.
Proof.
  split; [reflexivity|]. split; [reflexivity|]. split; [reflexivity|].
  destruct (default_arguments_valid up) as [Hp Hl].
  apply (fetch_mutate_rejected_unprintable up DEFAULT_DICTIONARY_PATH DEFAULT_LANGUAGE
           unprintable_graphql_client (VString (js "preview-1"))
           (Thrown unprintable_reason) Hp Hl); reflexivity.
Qed.

(** *** Well-formed responses *)







(** C6. Once the GraphQL call has resolved, the fetcher reads the field
    [results] under [data], [data], [item] and [children] of the response.
    When that field is absent (any link of the chain may be missing) or is
    not an array, and when it is an empty array, the fetcher gives the
    empty list; only the console line differs. *)
Theorem fetchDictionaryItems_no_results
        (up : code_unit -> code_unit) (c : ClientSDK) (path lang : jsstring)
        (id response : value) :
  isValidSitecorePath up path = true ->
  isValidLanguageCode up lang = true ->
  outcome (getPreviewContextId (Some c)) = Normal id ->
  truthy id = true ->
  mutate c (js "xmc.preview.graphql") (graphql_params id (graphql_query path lang))
    = Resolved response ->
  let data := opt_field response (js "data") in
  let inner := opt_field data (js "data") in
  let item := opt_field inner (js "item") in
  let children := opt_field item (js "children") in
  let results := opt_field children (js "results") in
  (nullish response = true \/ nullish data = true \/ nullish inner = true
   \/ nullish item = true \/ nullish children = true \/ nullish results = true ->
   outcome (fetchDictionaryItems up (Some c) path lang) = Normal [])
  /\ (isArray results = false ->
      outcome (fetchDictionaryItems up (Some c) path lang) = Normal []
      /\ trace (process_response response)
         = [Console LLog (js "GraphQL Response:");
            Console LWarn (js "No dictionary items found at path:")])
  /\ (results = VArray [] ->
      outcome (fetchDictionaryItems up (Some c) path lang) = Normal []
      /\ trace (process_response response)
         = [Console LLog (js "GraphQL Response:");
            Console LWarn (js "Dictionary folder is empty at path:")]).
Proof.
  intros Hp Hl Hid Ht Hm data inner item children results.
  rewrite (fetchDictionaryItems_resolved up c path lang id response Hp Hl Hid Ht Hm).
  assert (Hfield : results_of response = results) by reflexivity.
  assert (Hnot : isArray results = false ->
                 process_response response
                 = ([Console LLog (js "GraphQL Response:");
                     Console LWarn (js "No dictionary items found at path:")], Normal [])).
  { intros Hr. apply process_response_not_array. now rewrite Hfield. }
  split; [|split].
  - intros Hlink. rewrite Hnot; [reflexivity|].
    subst results children item inner data. unfold opt_field in *.
    repeat match goal with
           | |- context [if nullish ?v then _ else _] => destruct (nullish v) eqn:?
           end; try reflexivity;
      destruct Hlink as [H | [H | [H | [H | [H | H]]]]]; try congruence;
        match type of H with
        | nullish ?v = true => destruct v; try discriminate; reflexivity
        end.
  - intros Hr. now rewrite (Hnot Hr).
  - intros Hr. rewrite (process_response_empty response); [now split|].
    now rewrite Hfield.
Qed.

(** A response without the field, a response that is itself an array of
    entries, a response that holds the entries one [data] too high, and a
    response whose field is the empty array all give the empty list. *)
Lemma fetchDictionaryItems_no_results_witness :
  outcome (fetchDictionaryItems no_folding (Some (client_answering (VObject [])))
             DEFAULT_DICTIONARY_PATH DEFAULT_LANGUAGE) = Normal []
  /\ outcome (fetchDictionaryItems no_folding
                (Some (client_answering (VArray Spec.example_results)))
                DEFAULT_DICTIONARY_PATH DEFAULT_LANGUAGE) = Normal []
  /\ outcome (fetchDictionaryItems no_folding
                (Some (client_answering (shallow_response (VArray Spec.example_results))))
                DEFAULT_DICTIONARY_PATH DEFAULT_LANGUAGE) = Normal []
  /\ outcome (fetchDictionaryItems no_folding
                (Some (client_answering (response_with (VArray []))))
                DEFAULT_DICTIONARY_PATH DEFAULT_LANGUAGE) = Normal [].
Proof.
  split; [|split; [|split]].
  - destruct (fetchDictionaryItems_no_results no_folding (client_answering (VObject []))
                DEFAULT_DICTIONARY_PATH DEFAULT_LANGUAGE (VString (js "preview-1")) (VObject [])
                eq_refl eq_refl eq_refl eq_refl eq_refl) as (Habsent & _).
    apply Habsent. right. now left.
  - destruct (fetchDictionaryItems_no_results no_folding
                (client_answering (VArray Spec.example_results))
                DEFAULT_DICTIONARY_PATH DEFAULT_LANGUAGE (VString (js "preview-1"))
                (VArray Spec.example_results)
                eq_refl eq_refl eq_refl eq_refl eq_refl) as (_ & Hnot & _).
    apply Hnot. reflexivity.
  - destruct (fetchDictionaryItems_no_results no_folding
                (client_answering (shallow_response (VArray Spec.example_results)))
                DEFAULT_DICTIONARY_PATH DEFAULT_LANGUAGE (VString (js "preview-1"))
                (shallow_response (VArray Spec.example_results))
                eq_refl eq_refl eq_refl eq_refl eq_refl) as (Habsent & _).
    apply Habsent. do 2 right. now left.
  - destruct (fetchDictionaryItems_no_results no_folding
                (client_answering (response_with (VArray [])))
                DEFAULT_DICTIONARY_PATH DEFAULT_LANGUAGE (VString (js "preview-1"))
                (response_with (VArray []))
                eq_refl eq_refl eq_refl eq_refl eq_refl) as (_ & _ & Hempty).
    apply Hempty. reflexivity.
Defined.

(** *** Invalid inputs *)

(** C4. For a client that is present and a path that does not match
    [^/sitecore/[\w\s\-/]+$], the fetcher logs one error line and returns
    the empty list; no SDK query or mutation is among its events.  The path
    validator is true exactly on the strings that match, which are the
    strings made of the root [/sitecore/] followed by at least one word
    character, white space, hyphen or slash. *)
Theorem fetchDictionaryItems_invalid_path
        (up : code_unit -> code_unit) (c : ClientSDK) (path lang : jsstring) :
  ~ Matches up false (body sitecorePathRegExp) path ->
  fetchDictionaryItems up (Some c) path lang
  = ([Console LError (js "Invalid dictionary path format:")], Normal [])
  /\ filter isSdkCall (trace (fetchDictionaryItems up (Some c) path lang)) = []
  /\ (forall p, isValidSitecorePath up p = true <->
                Matches up false (body sitecorePathRegExp) p)
  /\ (forall p, isValidSitecorePath up p = Spec.path_ok p).
Proof.
  intros Hno.
  assert (Hv : isValidSitecorePath up path = false).
  { destruct (isValidSitecorePath up path) eqn:E; [|reflexivity].
    now apply isValidSitecorePath_Matches in E. }
  assert (Hrun : fetchDictionaryItems up (Some c) path lang
                 = ([Console LError (js "Invalid dictionary path format:")], Normal [])).
  { unfold fetchDictionaryItems. now rewrite Hv. }
  split; [exact Hrun|]. split; [now rewrite Hrun|].
  split; [apply isValidSitecorePath_Matches | apply isValidSitecorePath_spec].
Qed.

Lemma fetchDictionaryItems_invalid_path_witness :
  fetchDictionaryItems no_folding (Some (client_answering (response_with (VArray Spec.example_results))))
    (js "/sitecore/content/a.b") DEFAULT_LANGUAGE
  = ([Console LError (js "Invalid dictionary path format:")], Normal []).
Proof.
  apply (fetchDictionaryItems_invalid_path no_folding
           (client_answering (response_with (VArray Spec.example_results)))
           (js "/sitecore/content/a.b") DEFAULT_LANGUAGE).
  intros H. apply (matches_whole_Matches no_folding false) in H. discriminate H.
Defined.

(** C5. For a client that is present, a valid path and a language that
    does not match [^[a-z]{2}(-[a-z]{2,3})?$] case-insensitively, the
    fetcher returns the empty list.  The language validator is true exactly
    on the strings that match, which are two letters, optionally followed by
    a hyphen and two or three letters, in either case. *)
Theorem fetchDictionaryItems_invalid_language
        (up : code_unit -> code_unit) (c : ClientSDK) (path lang : jsstring) :
  isValidSitecorePath up path = true ->
  ~ Matches up true (body languageCodeRegExp) lang ->
  fetchDictionaryItems up (Some c) path lang
  = ([Console LError (js "Invalid language code format:")], Normal [])
  /\ (forall l, isValidLanguageCode up l = true <->
                Matches up true (body languageCodeRegExp) l)
  /\ (forall l, isValidLanguageCode up l = Spec.language_ok l).
Proof.
  intros Hp Hno.
  assert (Hv : isValidLanguageCode up lang = false).
  { destruct (isValidLanguageCode up lang) eqn:E; [|reflexivity].
    now apply isValidLanguageCode_Matches in E. }
  split; [unfold fetchDictionaryItems; now rewrite Hp, Hv|].
  split; [apply isValidLanguageCode_Matches | apply isValidLanguageCode_spec].
Qed.

Lemma fetchDictionaryItems_invalid_language_witness :
  fetchDictionaryItems no_folding (Some (client_answering (response_with (VArray Spec.example_results))))
    DEFAULT_DICTIONARY_PATH (js "english")
  = ([Console LError (js "Invalid language code format:")], Normal []).
Proof.
  apply (fetchDictionaryItems_invalid_language no_folding
           (client_answering (response_with (VArray Spec.example_results)))
           DEFAULT_DICTIONARY_PATH (js "english")); [reflexivity|].
  intros H. apply (matches_whole_Matches no_folding true) in H. discriminate H.
Defined.

(** *** The context resolver *)

(** C3. [getPreviewContextId] never raises, for every client.  It
    returns null when the application context is absent (the client is
    absent, the query rejects, [getApplicationContext] returns null or
    raises), and when [resources[0].context.preview] is missing (any link
    of the chain may be absent) or is not a string; otherwise it returns
    that string.  A query that resolves without [resources] in its context
    gives null. *)
Theorem getPreviewContextId_spec (client : option ClientSDK) :
  (exists v, outcome (getPreviewContextId client) = Normal v)
  /\ (client = None -> outcome (getPreviewContextId client) = Normal VNull)
  /\ (forall e, outcome (getApplicationContext client) = Throw e ->
                outcome (getPreviewContextId client) = Normal VNull)
  /\ (forall c e, client = Some c ->
                  query c (js "application.context") = Rejected e ->
                  outcome (getPreviewContextId client) = Normal VNull)
  /\ (forall ctx,
        outcome (getApplicationContext client) = Normal ctx ->
        let resources := opt_field ctx (js "resources") in
        let first := opt_index resources 0 in
        let context := opt_field first (js "context") in
        let preview := opt_field context (js "preview") in
        (ctx = VNull -> outcome (getPreviewContextId client) = Normal VNull)
        /\ (nullish resources = true \/ nullish first = true \/ nullish context = true
            \/ nullish preview = true ->
            outcome (getPreviewContextId client) = Normal VNull)
        /\ (isString preview = false ->
            outcome (getPreviewContextId client) = Normal VNull)
        /\ (forall s, preview = VString s ->
                      outcome (getPreviewContextId client) = Normal (VString s)))
  /\ (forall c r, client = Some c ->
                  query c (js "application.context") = Resolved r ->
                  opt_field (opt_field r (js "data")) (js "resources") = VUndefined ->
                  outcome (getPreviewContextId client) = Normal VNull).
Proof.
  split; [apply getPreviewContextId_returns|].
  split; [now intros ->|].
  assert (Hrejected : forall c e, client = Some c ->
                        query c (js "application.context") = Rejected e ->
                        outcome (getPreviewContextId client) = Normal VNull).
  { intros c e -> Hq. rewrite getPreviewContextId_value.
    unfold preview_id_of, context_of. now rewrite Hq. }
  split.
  { intros e He. destruct client as [c|]; [|discriminate].
    rewrite getApplicationContext_outcome in He.
    destruct (query c (js "application.context")) as [r | e'] eqn:Hq; [discriminate|].
    now apply (Hrejected c e'). }
  split; [exact Hrejected|].
  split.
  { intros ctx Hctx resources first context preview.
    rewrite (getPreviewContextId_outcome client ctx Hctx).
    change (preview_of ctx) with preview.
    split; [now intros ->|].
    split.
    { intros [H | [H | [H | H]]].
      - subst preview context first. unfold opt_index. now rewrite H.
      - subst preview context. unfold opt_field. now rewrite H.
      - subst preview. unfold opt_field. now rewrite H.
      - clearbody preview. destruct preview; try discriminate; reflexivity. }
    split; [now intros ->|]. now intros s ->. }
  intros c r -> Hq Hres.
  rewrite getPreviewContextId_value. unfold preview_id_of, context_of. rewrite Hq.
  unfold coalesce. destruct (nullish (opt_field r (js "data"))); [reflexivity|].
  unfold preview_of. now rewrite Hres.
Qed.

Lemma getPreviewContextId_spec_witness :
  outcome (getPreviewContextId (Some (client_resolving (VObject [(js "data", VObject [])]))))
  = Normal VNull
  /\ outcome (getPreviewContextId (Some (client_resolving sample_context)))
     = Normal (VString (js "preview-1"))
  /\ outcome (getPreviewContextId (Some unprintable_client)) = Normal VNull.
Proof.
  split; [|split].
  - destruct (getPreviewContextId_spec
                (Some (client_resolving (VObject [(js "data", VObject [])]))))
      as (_ & _ & _ & _ & _ & Hlacking).
    apply (Hlacking _ (VObject [(js "data", VObject [])]) eq_refl); reflexivity.
  - destruct (getPreviewContextId_spec (Some (client_resolving sample_context)))
      as (_ & _ & _ & _ & Hctx & _).
    destruct (Hctx (get_field sample_context (js "data")) eq_refl) as (_ & _ & _ & Hstring).
    apply Hstring. reflexivity.
  - destruct (getPreviewContextId_spec (Some unprintable_client))
      as (_ & _ & Hraised & _).
    apply (Hraised TypeError). reflexivity.
Defined.




Lemma own_property_size (name : jsstring) (props : list (jsstring * value)) :
  own_property name props = VUndefined
  \/ (size (own_property name props) <= list_sum (map (fun kv => size (snd kv)) props))%nat.
Proof.
  induction props as [|[k v] props IH]; simpl; [now left|].
  destruct (str_eqb name k); [right; lia|].
  destruct IH as [IH | IH]; [now left | right; lia].
Qed.

Lemma get_field_not_self (props : list (jsstring * value)) (name : jsstring) :
  get_field (VObject props) name <> VObject props.
Proof.
  simpl. intros H. destruct (own_property_size name props) as [Hu | Hs].
  - rewrite Hu in H. discriminate.
  - rewrite H in Hs. simpl in Hs. lia.
Qed.

(** C10. With a client present and a query that resolves,
    [getApplicationContext] returns null when the [data] field of the
    response is null or undefined, and the [data] field itself in every
    other case; it never returns the response object. *)
Theorem getApplicationContext_payload (c : ClientSDK) (r : value) :
  query c (js "application.context") = Resolved r ->
  (nullish (opt_field r (js "data")) = true ->
   outcome (getApplicationContext (Some c)) = Normal VNull)
  /\ (nullish (opt_field r (js "data")) = false ->
      outcome (getApplicationContext (Some c)) = Normal (get_field r (js "data")))
  /\ (forall props, r = VObject props ->
                    outcome (getApplicationContext (Some c)) <> Normal r).
Proof.
  intros Hq. rewrite getApplicationContext_outcome, Hq. unfold coalesce.
  split; [now intros ->|]. split.
  - intros H. rewrite H. unfold opt_field in *. now destruct (nullish r).
  - intros props ->. cbn [opt_field nullish].
    destruct (nullish (get_field (VObject props) (js "data"))); [discriminate|].
    intros [= H]. now apply get_field_not_self in H.
Qed.

Lemma getApplicationContext_payload_witness :
  outcome (getApplicationContext (Some (client_resolving (VObject [(js "data", VNull)]))))
  = Normal VNull
  /\ outcome (getApplicationContext (Some (client_resolving (VObject []))))
     = Normal VNull
  /\ outcome (getApplicationContext (Some (client_resolving sample_context)))
     = Normal (get_field sample_context (js "data")).
Proof.
  split; [|split].
  - destruct (getApplicationContext_payload
                (client_resolving (VObject [(js "data", VNull)]))
                (VObject [(js "data", VNull)]) eq_refl) as (Hnull & _).
    apply Hnull. reflexivity.
  - destruct (getApplicationContext_payload
                (client_resolving (VObject [])) (VObject []) eq_refl) as (Hnull & _).
    apply Hnull. reflexivity.
  - destruct (getApplicationContext_payload
                (client_resolving sample_context) sample_context eq_refl) as (_ & Hdata & _).
    apply Hdata. reflexivity.
Defined.

(** ** The user hook *)

Import UseUser.

Lemma fetchUserData_shape (c : ClientSDK) :
  exists middle,
    fetchUserData (Some c) true
    = [SetIsLoading true; Effect (SdkQuery (js "host.user"))] ++ middle ++ [SetIsLoading false]
    /\ filter isHookQuery middle = []
    /\ (forall r, query c (js "host.user") = Resolved r -> nullish r = false ->
                  middle = [SetUser (get_field r (js "data"))])
    /\ ((exists e, query c (js "host.user") = Rejected e)
        \/ (exists r, query c (js "host.user") = Resolved r /\ nullish r = true) ->
        middle = [Effect (Console LError (js "Failed to fetch user data:"))]).
Proof.
  unfold fetchUserData, client_query, destructure_data, member. cbn [negb].
  destruct (query c (js "host.user")) as [r | e];
    cbn [bind await ret raise app trace outcome fst snd map];
    [destruct (nullish r) eqn:En;
     cbn [bind await ret raise app trace outcome fst snd map]|].
  - exists [Effect (Console LError (js "Failed to fetch user data:"))].
    repeat split; try reflexivity. intros r' [= <-] H. congruence.
  - exists [SetUser (get_field r (js "data"))].
    repeat split; try reflexivity.
    + now intros r' [= <-] _.
    + intros [[e H] | (r' & [= <-] & H)]; congruence.
  - exists [Effect (Console LError (js "Failed to fetch user data:"))].
    repeat split; try reflexivity. discriminate.
Qed.

Lemma after_effect_shape (c : ClientSDK) (st : HookState) (middle : list hook_event) :
  fetchUserData (Some c) true
  = [SetIsLoading true; Effect (SdkQuery (js "host.user"))] ++ middle ++ [SetIsLoading false] ->
  after_effect (Some c) true st
  = setIsLoading false (fold_left apply_event middle (setIsLoading true st)).
Proof.
  intros H. unfold after_effect. rewrite H. cbn [app fold_left apply_event].
  now rewrite fold_left_app.
Qed.

(** C8. With the client absent or not initialized the effect does nothing:
    the state is untouched and the hook stays loading.  Otherwise the effect
    first sets the loading flag, issues exactly one query, for the current
    user, stores the [data] of the response on success and leaves the user
    as it was on failure, and always ends with the loading flag cleared.  On
    a response [{ data: { name: "X" } }] the hook ends not loading with
    [user.name] equal to ["X"]; on a rejected query it ends not loading with
    the user undefined. *)
Theorem useUser_spec (client : option ClientSDK) (isInitialized : bool) (st : HookState) :
  (client = None \/ isInitialized = false ->
   fetchUserData client isInitialized = []
   /\ after_effect client isInitialized st = st
   /\ useUser client isInitialized = initial
   /\ isLoading (useUser client isInitialized) = true)
  /\ (forall c, client = Some c -> isInitialized = true ->
        hd_error (fetchUserData client isInitialized) = Some (SetIsLoading true)
        /\ filter isHookQuery (fetchUserData client isInitialized)
           = [Effect (SdkQuery (js "host.user"))]
        /\ isLoading (after_effect client isInitialized st) = false
        /\ (forall r, query c (js "host.user") = Resolved r -> nullish r = false ->
                      user (after_effect client isInitialized st) = get_field r (js "data"))
        /\ (forall e, query c (js "host.user") = Rejected e ->
                      user (after_effect client isInitialized st) = user st)
        /\ (forall r, query c (js "host.user") = Resolved r ->
                      get_field (get_field r (js "data")) (js "name") = VString (js "X") ->
                      isLoading (useUser client isInitialized) = false
                      /\ get_field (user (useUser client isInitialized)) (js "name")
                         = VString (js "X"))
        /\ (forall e, query c (js "host.user") = Rejected e ->
                      useUser client isInitialized
                      = {| user := VUndefined; isLoading := false |})).
Proof.
  split.
  - intros [-> | ->]; [|destruct client]; repeat split; reflexivity.
  - intros c -> ->.
    destruct (fetchUserData_shape c) as (middle & Hshape & Hquiet & Hok & Hfail).
    split; [now rewrite Hshape|].
    split.
    { rewrite Hshape. cbn [app filter isHookQuery isSdkCall].
      now rewrite filter_app, Hquiet. }
    split; [now rewrite (after_effect_shape c st middle Hshape)|].
    split.
    { intros r Hq Hr. rewrite (after_effect_shape c st middle Hshape), (Hok r Hq Hr).
      reflexivity. }
    split.
    { intros e Hq. rewrite (after_effect_shape c st middle Hshape), Hfail by eauto.
      reflexivity. }
    split.
    { intros r Hq Hname. unfold useUser.
      rewrite (after_effect_shape c initial middle Hshape).
      assert (Hr : nullish r = false) by (destruct r; try reflexivity; discriminate).
      rewrite (Hok r Hq Hr). split; [reflexivity | exact Hname]. }
    intros e Hq. unfold useUser.
    rewrite (after_effect_shape c initial middle Hshape), Hfail by eauto. reflexivity.
Qed.

Lemma useUser_spec_witness :
  (let st := useUser (Some (client_resolving
                              (VObject [(js "data", VObject [(js "name", VString (js "X"))])])))
                     true in
   isLoading st = false /\ get_field (user st) (js "name") = VString (js "X"))
  /\ useUser (Some offline_client) true = {| user := VUndefined; isLoading := false |}
  /\ useUser None true = initial.
Proof.
  cbv zeta. split; [|split].
  - destruct (useUser_spec
                (Some (client_resolving
                         (VObject [(js "data", VObject [(js "name", VString (js "X"))])])))
                true initial) as (_ & Hrun).
    destruct (Hrun _ eq_refl eq_refl) as (_ & _ & _ & _ & _ & Hname & _).
    apply (Hname (VObject [(js "data", VObject [(js "name", VString (js "X"))])]));
      reflexivity.
  - destruct (useUser_spec (Some offline_client) true initial) as (_ & Hrun).
    destruct (Hrun _ eq_refl eq_refl) as (_ & _ & _ & _ & _ & _ & Hrejected).
    apply (Hrejected (ErrorObject (js "offline"))). reflexivity.
  - destruct (useUser_spec None true initial) as (Hskip & _).
    destruct (Hskip (or_introl eq_refl)) as (_ & _ & Hinitial & _). exact Hinitial.
Defined.

(* ------------------------------------------------------------------ *)
(** * Further properties of the sources *)

(** ** Runs with their events *)

Module RunFacts.

Import RegExp StringFacts ValidatorFacts DictionaryFacts SitecoreDictionary Readings.

Lemma bind_normal {A B} (t : list event) (a : A) (f : A -> Async B) :
  bind (t, Normal a) f = (t ++ trace (f a), outcome (f a)).
Proof. unfold bind, trace, outcome. now destruct (f a). Qed.

Lemma bind_throw {A B} (t : list event) (e : thrown) (f : A -> Async B) :
  bind (t, Throw e) f = (t, Throw e).
Proof. reflexivity. Qed.

Lemma forallb_map_compose {A B} (f : B -> bool) (g : A -> B) (l : list A) :
  forallb f (map g l) = forallb (fun a => f (g a)) l.
Proof. induction l as [|a l IH]; simpl; [reflexivity | now rewrite IH]. Qed.

Lemma run_eta {A} (m : Async A) : m = (trace m, outcome m).
Proof. now destruct m. Qed.

(** *** The map callback and the filter callback, entry by entry *)

Lemma to_item_run (r : value) :
  to_item r =
  if nullish r then ([], Throw TypeError)
  else (phrase_warning r, Normal (raw_item r)).
Proof.
  unfold to_item, member. destruct (nullish r) eqn:En; [reflexivity|].
  rewrite !bind_ret_l. unfold phrase_warning, raw_item. cbn [phrase].
  destruct (truthy (or_else (opt_field (get_field r (js "phraseField")) (js "value"))
                            (VString []))); reflexivity.
Qed.

Lemma has_phrase_run (item : DictionaryItem) :
  has_phrase item =
  match phrase item with
  | VString s => ([], Normal (Spec.nonblank s))
  | _ => ([], Throw TypeError)
  end.
Proof.
  unfold has_phrase, call_trim, Spec.nonblank.
  destruct (phrase item); try reflexivity.
  rewrite bind_ret_l. unfold ret. now destruct (List.length (trim s)).
Qed.

Lemma mapM_to_item_run (rs : list value) :
  forallb (fun r => negb (nullish r)) rs = true ->
  mapM to_item rs = (flat_map phrase_warning rs, Normal (map raw_item rs)).
Proof.
  induction rs as [|r rs IH]; cbn [forallb mapM flat_map map]; intros H; [reflexivity|].
  apply andb_true_iff in H as [Hr Hrs]. apply negb_true_iff in Hr.
  rewrite to_item_run, Hr, bind_normal, (IH Hrs), bind_normal. cbn [trace outcome fst snd ret].
  now rewrite app_nil_r.
Qed.

Lemma mapM_to_item_null (rs : list value) :
  existsb nullish rs = true ->
  outcome (mapM to_item rs) = Throw TypeError.
Proof.
  induction rs as [|r rs IH]; cbn [existsb mapM]; intros H; [discriminate|].
  rewrite to_item_run. destruct (nullish r); [reflexivity|]. cbn [orb] in H.
  rewrite bind_normal. cbn [outcome snd]. rewrite outcome_bind, (IH H). reflexivity.
Qed.

Lemma mapM_to_item_quiet (rs : list value) :
  sdk_calls (trace (mapM to_item rs)) = [].
Proof.
  induction rs as [|r rs IH]; cbn [mapM]; [reflexivity|].
  rewrite to_item_run. destruct (nullish r); [reflexivity|].
  rewrite bind_normal. cbn [trace fst]. unfold sdk_calls in *. rewrite filter_app.
  rewrite trace_bind. destruct (outcome (mapM to_item rs)).
  - cbn [ret trace fst]. rewrite app_nil_r, IH, app_nil_r.
    unfold phrase_warning. now destruct (truthy _).
  - rewrite IH, app_nil_r. unfold phrase_warning. now destruct (truthy _).
Qed.

Lemma filterM_has_phrase_run (items : list DictionaryItem) :
  filterM has_phrase items =
  ([], if forallb (fun item => isString (phrase item)) items
       then Normal (filter (fun item => Spec.nonblank (Spec.phrase_text item)) items)
       else Throw TypeError).
Proof.
  induction items as [|item items IH]; cbn [filterM forallb filter]; [reflexivity|].
  rewrite has_phrase_run. unfold Spec.phrase_text at 1.
  destruct (phrase item) as [ | | | | s | | ]; try reflexivity.
  rewrite bind_normal, IH. cbn [isString andb trace outcome fst snd app].
  destruct (forallb _ items); [|reflexivity].
  rewrite bind_normal. cbn [ret trace outcome fst snd]. now destruct (Spec.nonblank s).
Qed.

(** *** The response guard and the chain behind it *)

Lemma process_response_array (response r : value) (rs : list value) :
  results_of response = VArray (r :: rs) ->
  outcome (process_response response)
  = (if entries_usable (r :: rs)
     then Normal (filter (fun item => Spec.nonblank (Spec.phrase_text item))
                         (map raw_item (r :: rs)))
     else Throw TypeError)
  /\ sdk_calls (trace (process_response response)) = []
  /\ (forallb (fun r => negb (nullish r)) (r :: rs) = true ->
      trace (process_response response)
      = Console LLog (js "GraphQL Response:") :: flat_map phrase_warning (r :: rs)).
Proof.
  intros H.
  assert (Hrun : process_response response
                 = (Console LLog (js "GraphQL Response:")
                      :: trace (items <- mapM to_item (r :: rs) ;; filterM has_phrase items),
                    outcome (items <- mapM to_item (r :: rs) ;; filterM has_phrase items))).
  { unfold process_response. rewrite H.
    cbn [truthy isArray negb orb elements List.length Nat.eqb].
    unfold console. now rewrite bind_normal. }
  rewrite Hrun. cbn [outcome trace fst snd]. clear Hrun.
  unfold entries_usable.
  split; [|split].
  - destruct (forallb (fun r0 => negb (nullish r0)) (r :: rs)) eqn:Enn.
    + rewrite (mapM_to_item_run _ Enn), bind_normal. cbn [outcome snd andb].
      rewrite filterM_has_phrase_run. cbn [outcome snd]. now rewrite forallb_map_compose.
    + rewrite outcome_bind, mapM_to_item_null; [reflexivity|].
      clear -Enn. induction (r :: rs) as [|x l IH]; [discriminate|].
      cbn [forallb existsb] in *. destruct (nullish x); [reflexivity|]. now apply IH.
  - unfold sdk_calls. cbn [filter isSdkCall]. rewrite trace_bind.
    pose proof (mapM_to_item_quiet (r :: rs)) as Hq. unfold sdk_calls in Hq.
    destruct (outcome (mapM to_item (r :: rs))); [|exact Hq].
    now rewrite filter_app, Hq, filterM_has_phrase_run.
  - intros Enn. rewrite (mapM_to_item_run _ Enn), bind_normal.
    cbn [trace fst]. rewrite filterM_has_phrase_run. cbn [trace fst]. now rewrite app_nil_r.
Qed.

Lemma process_response_quiet (response : value) :
  sdk_calls (trace (process_response response)) = [].
Proof.
  destruct (results_of response) as [ | | | | | [|r rs] | ] eqn:E;
    try (rewrite process_response_not_array by (now rewrite E); reflexivity).
  - now rewrite (process_response_empty response E).
  - now apply (process_response_array response r rs E).
Qed.

(** *** The context resolver, with its events *)

Lemma getApplicationContext_run (c : ClientSDK) :
  getApplicationContext (Some c)
  = (SdkQuery (js "application.context")
       :: match query c (js "application.context") with
          | Resolved _ => []
          | Rejected e =>
            if printable e
            then [Console LError (js "Failed to get application context:")]
            else []
          end,
     match query c (js "application.context") with
     | Resolved r => Normal (coalesce (opt_field r (js "data")) VNull)
     | Rejected e => caught VNull (Throw e)
     end).
Proof.
  unfold getApplicationContext, client_query. rewrite tryCatch_logged.
  rewrite bind_normal.
  destruct (query c (js "application.context")) as [r | e]; reflexivity.
Qed.

(** The events of the resolver after its query: a rejection is logged by
    [getApplicationContext], or, when its message does not extract, by the
    resolver's own [catch]. *)
Lemma getPreviewContextId_run (c : ClientSDK) :
  getPreviewContextId (Some c)
  = (SdkQuery (js "application.context")
       :: match query c (js "application.context") with
          | Resolved _ =>
            if truthy (context_of c) && negb (isString (preview_of (context_of c)))
            then [Console LError (js "Preview context ID not found in application context")]
            else []
          | Rejected e =>
            if printable e
            then [Console LError (js "Failed to get application context:")]
            else [Console LError (js "Failed to get preview context ID:")]
          end,
     Normal (preview_id_of c)).
Proof.
  unfold getPreviewContextId, preview_id_of, context_of. rewrite tryCatch_logged.
  rewrite getApplicationContext_run.
  destruct (query c (js "application.context")) as [r | e].
  - rewrite bind_normal. cbn [trace outcome fst snd].
    set (ctx := coalesce (opt_field r (js "data")) VNull).
    destruct (truthy ctx) eqn:Et; cbn [negb andb].
    + destruct (isString (preview_of ctx)); cbn [negb];
        cbn [trace outcome fst snd ret console bind caught app]; now rewrite ?app_nil_r.
    + rewrite (preview_of_falsy _ Et). cbn [isString trace outcome fst snd ret caught app].
      now rewrite ?app_nil_r.
  - cbn [caught]. destruct (printable e); [rewrite bind_normal | rewrite bind_throw];
      reflexivity.
Qed.

Lemma getPreviewContextId_sdk_calls (c : ClientSDK) :
  sdk_calls (trace (getPreviewContextId (Some c))) = [SdkQuery (js "application.context")].
Proof.
  rewrite getPreviewContextId_run. cbn [trace fst].
  unfold sdk_calls. cbn [filter isSdkCall].
  destruct (query c _) as [r | e]; [destruct (_ && _) | destruct (printable e)]; reflexivity.
Qed.

(** *** The fetcher, with its events *)

Section FetchRun.

Variable up : code_unit -> code_unit.
Variables (c : ClientSDK) (path lang : jsstring).

Local Abbreviation params := (graphql_params (preview_id_of c) (graphql_query path lang)).

Lemma fetch_body_run :
  fetch_body c path lang
  = (trace (getPreviewContextId (Some c))
       ++ Console LLog (js "Preview Context ID:")
       :: (if truthy (preview_id_of c)
           then Console LLog (js "Executing GraphQL Query:")
                  :: SdkMutate (js "xmc.preview.graphql") params
                  :: match mutate c (js "xmc.preview.graphql") params with
                     | Resolved response => trace (process_response response)
                     | Rejected _ => []
                     end
           else [Console LWarn (js "No preview context ID found")]),
     if truthy (preview_id_of c)
     then match mutate c (js "xmc.preview.graphql") params with
          | Resolved response => outcome (process_response response)
          | Rejected e => Throw e
          end
     else Normal []).
Proof.
  unfold fetch_body.
  pose proof (getPreviewContextId_run c) as Hrun.
  destruct (getPreviewContextId (Some c)) as [t o]. injection Hrun as _ ->.
  rewrite bind_normal. cbn [trace fst].
  unfold console at 1. rewrite bind_normal.
  destruct (truthy (preview_id_of c)); cbn [negb].
  - unfold console at 1. rewrite bind_normal. unfold client_mutate. rewrite bind_normal.
    destruct (mutate c (js "xmc.preview.graphql") params) as [response | e];
      cbn [await ret raise trace outcome fst snd app];
      rewrite ?bind_normal, ?bind_throw; cbn [trace outcome fst snd app]; reflexivity.
  - reflexivity.
Qed.

Lemma fetchDictionaryItems_run :
  isValidSitecorePath up path = true ->
  isValidLanguageCode up lang = true ->
  fetchDictionaryItems up (Some c) path lang
  = (trace (fetch_body c path lang)
       ++ match outcome (fetch_body c path lang) with
          | Normal _ => []
          | Throw e =>
            if printable e
            then [Console LError (js "Failed to fetch dictionary items:")]
            else []
          end,
     caught [] (outcome (fetch_body c path lang))).
Proof.
  intros Hp Hl. unfold fetchDictionaryItems. rewrite Hp, Hl. cbn [negb].
  apply tryCatch_logged.
Qed.

Lemma fetch_body_sdk_calls :
  sdk_calls (trace (fetch_body c path lang))
  = SdkQuery (js "application.context")
      :: (if truthy (preview_id_of c)
          then [SdkMutate (js "xmc.preview.graphql") params]
          else []).
Proof.
  rewrite fetch_body_run. cbn [trace fst]. unfold sdk_calls.
  rewrite filter_app. fold (sdk_calls (trace (getPreviewContextId (Some c)))).
  rewrite getPreviewContextId_sdk_calls. cbn [app filter isSdkCall].
  destruct (truthy (preview_id_of c)); [|reflexivity].
  cbn [filter isSdkCall].
  destruct (mutate c _ _) as [response | e]; [|reflexivity].
  fold (sdk_calls (trace (process_response response))).
  now rewrite process_response_quiet.
Qed.

Lemma fetchDictionaryItems_sdk_calls_valid :
  isValidSitecorePath up path = true ->
  isValidLanguageCode up lang = true ->
  sdk_calls (trace (fetchDictionaryItems up (Some c) path lang))
  = SdkQuery (js "application.context")
      :: (if truthy (preview_id_of c)
          then [SdkMutate (js "xmc.preview.graphql") params]
          else []).
Proof.
  intros Hp Hl. rewrite (fetchDictionaryItems_run Hp Hl). cbn [trace fst].
  unfold sdk_calls. rewrite filter_app. fold (sdk_calls (trace (fetch_body c path lang))).
  rewrite fetch_body_sdk_calls.
  destruct (outcome (fetch_body c path lang)) as [items | e];
    [|destruct (printable e)]; cbn [filter isSdkCall]; now rewrite app_nil_r.
Qed.

End FetchRun.

End RunFacts.

Import Readings RunFacts.

(** ** The fetcher: SDK traffic *)

(** The query text: the path and the language are spliced, each between
    double quotes, into the first line of a fixed template. *)
Lemma graphql_query_shape :
  exists rest : jsstring,
  forall path lang : jsstring,
    graphql_query path lang
    = js "{" ++ [10] ++ repeat 32 14
         ++ js "item(path:" ++ [34] ++ path ++ [34]
         ++ js ", language:" ++ [34] ++ lang ++ [34] ++ js ") {" ++ rest.
Proof.
  eexists. intros path lang. unfold graphql_query, line, dq.
  repeat rewrite <- app_assoc. reflexivity.
Qed.

(** X1. The SDK calls of a run of [fetchDictionaryItems] are, in order:
    none when the client is absent or an input is invalid; otherwise the
    [application.context] query, followed by the one
    [xmc.preview.graphql] mutation exactly when the preview id is truthy.
    The argument of that mutation is
    [{ params: { query: { sitecoreContextId }, body: { query } } }] with
    the preview id and the query text.  The query text opens with
    [item(path:"<path>", language:"<language>") {] on its second line and
    goes on with text that depends on neither the path nor the
    language. *)
Theorem fetchDictionaryItems_sdk_traffic
        (up : code_unit -> code_unit) (client : option ClientSDK) :
  exists rest : jsstring,
  forall path lang : jsstring,
  match client with
  | None => sdk_calls (trace (fetchDictionaryItems up client path lang)) = []
  | Some c =>
    exists id,
      outcome (getPreviewContextId client) = Normal id
      /\ sdk_calls (trace (fetchDictionaryItems up client path lang))
         = (if isValidSitecorePath up path && isValidLanguageCode up lang
            then SdkQuery (js "application.context")
                   :: (if truthy id
                       then [SdkMutate
                               (js "xmc.preview.graphql")
                               (VObject
                                  [(js "params",
                                    VObject
                                      [(js "query", VObject [(js "sitecoreContextId", id)]);
                                       (js "body",
                                        VObject
                                          [(js "query",
                                            VString
                                              (js "{" ++ [10] ++ repeat 32 14
                                                  ++ js "item(path:" ++ [34] ++ path ++ [34]
                                                  ++ js ", language:" ++ [34] ++ lang ++ [34]
                                                  ++ js ") {" ++ rest))])])])]
                       else [])
            else [])
  end.
Proof.
  destruct graphql_query_shape as [rest Hshape].
  exists rest. intros path lang.
  destruct client as [c|]; [|reflexivity].
  exists (preview_id_of c).
  split; [apply getPreviewContextId_value|].
  rewrite <- (Hshape path lang).
  change (VObject
            [(js "params",
              VObject
                [(js "query", VObject [(js "sitecoreContextId", preview_id_of c)]);
                 (js "body", VObject [(js "query", VString (graphql_query path lang))])])])
    with (graphql_params (preview_id_of c) (graphql_query path lang)).
  destruct (isValidSitecorePath up path) eqn:Hp; cbn [andb].
  - destruct (isValidLanguageCode up lang) eqn:Hl.
    + now apply fetchDictionaryItems_sdk_calls_valid.
    + unfold fetchDictionaryItems. now rewrite Hp, Hl.
  - unfold fetchDictionaryItems. now rewrite Hp.
Qed.

(** ** The fetcher: what a returned list can hold *)

Lemma fetchDictionaryItems_outcome_cases
      (up : code_unit -> code_unit) (client : option ClientSDK) (path lang : jsstring)
      (items : list DictionaryItem) :
  outcome (fetchDictionaryItems up client path lang) = Normal items ->
  items = []
  \/ exists rs, entries_usable rs = true
                /\ items = filter (fun item => Spec.nonblank (Spec.phrase_text item))
                                  (map raw_item rs).
Proof.
  destruct client as [c|]; [|intros [= <-]; now left].
  rewrite fetchDictionaryItems_outcome.
  destruct (_ && _); [|intros [= <-]; now left].
  rewrite (fetch_body_run c path lang). cbn [outcome snd].
  destruct (truthy (preview_id_of c)); [|intros [= <-]; now left].
  destruct (mutate c _ _) as [response | e];
    [|cbn [caught]; destruct (printable e); [intros [= <-]; now left | discriminate]].
  rewrite (caught_TypeError [] _ (process_response_raises response)).
  destruct (results_of response) as [ | | | | | [|r rs] | ] eqn:E;
    try (rewrite process_response_not_array by (now rewrite E); intros [= <-]; now left).
  - rewrite (process_response_empty response E). intros [= <-]. now left.
  - destruct (process_response_array response r rs E) as (Hout & _). rewrite Hout.
    destruct (entries_usable (r :: rs)) eqn:Eu; [|intros [= <-]; now left].
    intros [= <-]. right. now exists (r :: rs).
Qed.

(** X2. Whatever the client answers, every item of a returned list has a
    phrase that is a string with a non-empty trimmed form, and a key that
    is either the empty string or a truthy value. *)
Theorem fetchDictionaryItems_items_invariant
        (up : code_unit -> code_unit) (client : option ClientSDK) (path lang : jsstring)
        (items : list DictionaryItem) :
  outcome (fetchDictionaryItems up client path lang) = Normal items ->
  Forall (fun item =>
            (exists s, phrase item = VString s /\ Spec.nonblank s = true)
            /\ (key item = VString [] \/ truthy (key item) = true)) items.
Proof.
  intros H. apply fetchDictionaryItems_outcome_cases in H as [-> | (rs & Hu & ->)];
    [constructor|].
  apply Forall_forall. intros item Hin. apply filter_In in Hin as [Hin Hnb].
  apply in_map_iff in Hin as (r & <- & Hr).
  unfold entries_usable in Hu. apply andb_true_iff in Hu as [_ Hstr].
  rewrite forallb_forall in Hstr. specialize (Hstr r Hr).
  split.
  - unfold Spec.phrase_text in Hnb.
    destruct (phrase (raw_item r)) as [ | | | | s | | ]; try discriminate. eauto.
  - unfold raw_item, or_else. cbn [key].
    destruct (truthy (opt_field (get_field r (js "keyField")) (js "value"))) eqn:Et; auto.
Qed.

Lemma fetchDictionaryItems_items_invariant_witness :
  Forall (fun item =>
            (exists s, phrase item = VString s /\ Spec.nonblank s = true)
            /\ (key item = VString [] \/ truthy (key item) = true))
         [ {| key := VNumber (Finite false 7 0); phrase := VString (js " hi ") |} ].
Proof.
  apply (fetchDictionaryItems_items_invariant no_folding
           (Some (client_answering (response_with (VArray numeric_key_results))))
           DEFAULT_DICTIONARY_PATH DEFAULT_LANGUAGE).
  reflexivity.
Defined.

(** X3. One unusable entry discards the whole list: once the GraphQL call
    has resolved with a results array, an entry that is null or undefined,
    or whose phrase value is truthy without being a string, makes the
    fetcher return the empty list, whatever the other entries hold. *)
Theorem fetchDictionaryItems_one_bad_entry
        (up : code_unit -> code_unit) (c : ClientSDK) (path lang : jsstring)
        (id response x : value) (rs : list value) :
  isValidSitecorePath up path = true ->
  isValidLanguageCode up lang = true ->
  outcome (getPreviewContextId (Some c)) = Normal id ->
  truthy id = true ->
  mutate c (js "xmc.preview.graphql") (graphql_params id (graphql_query path lang))
    = Resolved response ->
  results_of response = VArray rs ->
  In x rs ->
  nullish x = true \/ isString (phrase (raw_item x)) = false ->
  outcome (fetchDictionaryItems up (Some c) path lang) = Normal []
  /\ outcome (process_response response) = Throw TypeError.
Proof.
  intros Hp Hl Hid Ht Hm Hr Hx Hbad.
  rewrite (fetchDictionaryItems_resolved up c path lang id response Hp Hl Hid Ht Hm).
  destruct rs as [|r rs]; [contradiction|].
  destruct (process_response_array response r rs Hr) as (Hout & _). rewrite Hout.
  assert (Hu : entries_usable (r :: rs) = false).
  { unfold entries_usable. apply andb_false_iff.
    destruct Hbad as [Hn | Hs]; [left | right]; apply not_true_iff_false; intros Hall;
      rewrite forallb_forall in Hall; specialize (Hall x Hx).
    - now rewrite Hn in Hall.
    - now rewrite Hs in Hall. }
  now rewrite Hu.
Qed.

Lemma fetchDictionaryItems_one_bad_entry_witness :
  outcome (fetchDictionaryItems no_folding
             (Some (client_answering
                      (response_with (VArray (Spec.example_results ++ [VNull])))))
             DEFAULT_DICTIONARY_PATH DEFAULT_LANGUAGE) = Normal [].
Proof.
  apply (fetchDictionaryItems_one_bad_entry no_folding
           (client_answering (response_with (VArray (Spec.example_results ++ [VNull]))))
           DEFAULT_DICTIONARY_PATH DEFAULT_LANGUAGE (VString (js "preview-1"))
           (response_with (VArray (Spec.example_results ++ [VNull]))) VNull
           (Spec.example_results ++ [VNull])
           eq_refl eq_refl eq_refl eq_refl eq_refl eq_refl).
  - right. right. now left.
  - now left.
Defined.

(** ** The fetcher: warnings and silent drops *)





(** ** The validators guard the query text *)

Lemma path_ok_chars (path : jsstring) :
  Spec.path_ok path = true -> forallb Spec.isPathChar path = true.
Proof.
  unfold Spec.path_ok.
  destruct (Spec.strip_prefix (js "/sitecore/") path) as [rest|] eqn:E; [|discriminate].
  apply strip_prefix_Some in E as ->. intros H. apply andb_true_iff in H as [_ H].
  rewrite forallb_app, H. reflexivity.
Qed.

Lemma language_ok_chars (lang : jsstring) :
  Spec.language_ok lang = true -> forallb isLanguageChar lang = true.
Proof.
  unfold isLanguageChar.
  destruct lang as [|a [|b [|h [|x [|d [|e [|f l]]]]]]]; simpl; try discriminate; intros H;
    repeat (apply andb_true_iff in H; let H' := fresh "H" in destruct H as [H H']);
    repeat match goal with
           | E : Spec.isLetter _ = true |- _ => rewrite E; clear E
           | E : (_ =? _) = true |- _ => rewrite E; clear E
           end;
    now rewrite ?orb_true_r.
Qed.

Lemma count_occ_absent (q : code_unit) (ok : code_unit -> bool) (s : jsstring) :
  ok q = false -> forallb ok s = true -> count_occ N.eq_dec s q = 0%nat.
Proof.
  intros Hq Hs. apply count_occ_not_In. intros Hin.
  rewrite forallb_forall in Hs. specialize (Hs q Hin). congruence.
Qed.

(** X5. A path and a language that pass the validators hold no double
    quote and no backslash, so the query text built from them holds
    exactly the ten double quotes of the template: neither argument can
    close the string literal it is interpolated into. *)
Theorem validated_arguments_cannot_escape
        (up : code_unit -> code_unit) (path lang : jsstring) :
  isValidSitecorePath up path = true ->
  isValidLanguageCode up lang = true ->
  ~ In 34 (path ++ lang)
  /\ ~ In 92 (path ++ lang)
  /\ count_occ N.eq_dec (graphql_query path lang) 34 = 10%nat.
Proof.
  intros Hp Hl. rewrite isValidSitecorePath_spec in Hp. rewrite isValidLanguageCode_spec in Hl.
  apply path_ok_chars in Hp. apply language_ok_chars in Hl.
  assert (Hno : forall q, Spec.isPathChar q = false -> isLanguageChar q = false ->
                          count_occ N.eq_dec path q = 0%nat
                          /\ count_occ N.eq_dec lang q = 0%nat).
  { intros q H1 H2. split; [now apply (count_occ_absent q Spec.isPathChar)
                            | now apply (count_occ_absent q isLanguageChar)]. }
  destruct (Hno 34 eq_refl eq_refl) as [Hp34 Hl34].
  destruct (Hno 92 eq_refl eq_refl) as [Hp92 Hl92].
  unfold jsstring, code_unit in *.
  split; [|split].
  - rewrite (count_occ_not_In N.eq_dec), count_occ_app. rewrite Hp34, Hl34. reflexivity.
  - rewrite (count_occ_not_In N.eq_dec), count_occ_app, Hp92, Hl92. reflexivity.
  - unfold graphql_query, line. rewrite !count_occ_app.
    change (@count_occ code_unit) with (@count_occ N).
    rewrite Hp34, Hl34. reflexivity.
Qed.

Lemma validated_arguments_cannot_escape_witness :
  count_occ N.eq_dec (graphql_query DEFAULT_DICTIONARY_PATH DEFAULT_LANGUAGE) 34 = 10%nat.
Proof.
  apply (validated_arguments_cannot_escape no_folding DEFAULT_DICTIONARY_PATH DEFAULT_LANGUAGE);
    reflexivity.
Defined.

Lemma isLetter_asciiUpper (c : code_unit) :
  Spec.isLetter (asciiUpper c) = Spec.isLetter c.
Proof.
  apply eq_iff_eq_true.
  unfold Spec.isLetter, Spec.between, asciiUpper, chr; simpl N_of_ascii.
  destruct ((97 <=? c) && (c <=? 122)) eqn:E.
  - apply andb_true_iff in E as [H1 H2]. apply N.leb_le in H1, H2.
    rewrite !orb_true_iff, !andb_true_iff, !N.leb_le. lia.
  - now rewrite E.
Qed.

Lemma hyphen_asciiUpper (c : code_unit) :
  (asciiUpper c =? chr "-") = (c =? chr "-").
Proof.
  apply eq_iff_eq_true. rewrite !N.eqb_eq.
  unfold asciiUpper, chr; simpl N_of_ascii.
  destruct ((97 <=? c) && (c <=? 122)) eqn:E; [|tauto].
  apply andb_true_iff in E as [H1 H2]. apply N.leb_le in H1, H2. lia.
Qed.

(** X6. The language validator does not tell the letters a to z from
    their capitals: replacing each of a to z in a code by its capital, and
    leaving every other code unit as it is, does not change the verdict.
    This is not the upper-casing of [toUpperCase]: the code made of two
    dotless i (U+0131), which [toUpperCase] turns into II, is rejected
    while II is accepted, whatever the upper-case table of the engine.  A
    code the validator accepts has two, five or six code units, so a
    longer tag such as a four-letter script subtag is rejected. *)
Theorem isValidLanguageCode_case_and_length
        (up : code_unit -> code_unit) (lang : jsstring) :
  isValidLanguageCode up (map asciiUpper lang) = isValidLanguageCode up lang
  /\ (isValidLanguageCode up lang = true ->
      List.length lang = 2%nat \/ List.length lang = 5%nat \/ List.length lang = 6%nat)
  /\ isValidLanguageCode up [305; 305] = false
  /\ isValidLanguageCode up [73; 73] = true.
Proof.
  rewrite !isValidLanguageCode_spec. split; [|split; [|split; reflexivity]].
  - destruct lang as [|a [|b [|h [|x [|d [|e [|f l]]]]]]]; cbn [map Spec.language_ok];
      rewrite ?isLetter_asciiUpper, ?hyphen_asciiUpper; reflexivity.
  - destruct lang as [|a [|b [|h [|x [|d [|e [|f l]]]]]]]; cbn [Spec.language_ok List.length];
      intros H; try discriminate; auto.
Qed.

(** ** The context resolver: shape of the result *)

(** X7. An empty-string preview id is found and then treated as missing:
    [getPreviewContextId] returns the empty string without logging an
    error, and the fetcher answers the empty list with the warning that no
    preview context id was found, never reaching the GraphQL mutation. *)
Theorem empty_preview_id_counts_as_missing
        (up : code_unit -> code_unit) (c : ClientSDK) (path lang : jsstring) (ctx : value) :
  outcome (getApplicationContext (Some c)) = Normal ctx ->
  preview_of ctx = VString [] ->
  getPreviewContextId (Some c) = ([SdkQuery (js "application.context")], Normal (VString []))
  /\ outcome (fetchDictionaryItems up (Some c) path lang) = Normal []
  /\ (isValidSitecorePath up path = true -> isValidLanguageCode up lang = true ->
      trace (fetchDictionaryItems up (Some c) path lang)
      = [SdkQuery (js "application.context");
         Console LLog (js "Preview Context ID:");
         Console LWarn (js "No preview context ID found")]).
Proof.
  intros Hctx Hpre.
  rewrite getApplicationContext_outcome in Hctx.
  destruct (query c (js "application.context")) as [r | e] eqn:Hq.
  2:{ exfalso. cbn [caught] in Hctx. destruct (printable e); [|discriminate].
      injection Hctx as <-. discriminate Hpre. }
  assert (Hc : context_of c = ctx).
  { unfold context_of. rewrite Hq. now injection Hctx. }
  assert (Hrun : getPreviewContextId (Some c)
                 = ([SdkQuery (js "application.context")], Normal (VString []))).
  { rewrite getPreviewContextId_run. unfold preview_id_of.
    rewrite Hc, Hpre, Hq. cbn [isString negb andb].
    now rewrite andb_false_r. }
  split; [exact Hrun|]. split.
  - apply (fetch_missing_preview_id up path lang c (VString [])); [now rewrite Hrun | reflexivity].
  - intros Hp Hl. rewrite (fetchDictionaryItems_run up c path lang Hp Hl), fetch_body_run.
    rewrite Hrun. unfold preview_id_of. rewrite Hc, Hpre. reflexivity.
Qed.

Lemma empty_preview_id_counts_as_missing_witness :
  outcome (fetchDictionaryItems no_folding (Some (client_resolving empty_preview_context))
             DEFAULT_DICTIONARY_PATH DEFAULT_LANGUAGE) = Normal [].
Proof.
  apply (empty_preview_id_counts_as_missing no_folding
           (client_resolving empty_preview_context)
           DEFAULT_DICTIONARY_PATH DEFAULT_LANGUAGE
           (get_field empty_preview_context (js "data")));
    reflexivity.
Defined.

(** X8. [getPreviewContextId] and [getApplicationContext] each issue
    exactly one SDK call, the [application.context] query, when the client
    is present and none when it is absent; what [getPreviewContextId]
    returns is always null or a string. *)
Theorem getPreviewContextId_string_or_null (client : option ClientSDK) :
  (exists v, outcome (getPreviewContextId client) = Normal v
             /\ (v = VNull \/ exists s, v = VString s))
  /\ sdk_calls (trace (getPreviewContextId client))
     = match client with
       | None => []
       | Some _ => [SdkQuery (js "application.context")]
       end
  /\ sdk_calls (trace (getApplicationContext client))
     = match client with
       | None => []
       | Some _ => [SdkQuery (js "application.context")]
       end.
Proof.
  destruct client as [c|].
  - split; [|split].
    + rewrite getPreviewContextId_run. eexists. split; [reflexivity|].
      unfold preview_id_of.
      destruct (preview_of (context_of c)); cbn [isString]; eauto.
    + apply getPreviewContextId_sdk_calls.
    + rewrite getApplicationContext_run. cbn [trace fst]. unfold sdk_calls.
      cbn [filter isSdkCall].
      destruct (query c _) as [r | e]; [|destruct (printable e)]; reflexivity.
  - repeat split. exists VNull. auto.
Qed.

(** ** When the fetcher rejects *)

Lemma printable_false_iff (e : thrown) :
  printable e = false <-> exists v, e = Thrown v /\ ToString v = None.
Proof.
  unfold printable. split.
  - destruct e as [ | message | v]; cbn [getErrorMessage]; try discriminate.
    destruct (ToString v) eqn:Ev; [discriminate|]. intros _. now exists v.
  - intros (v & -> & Hv). cbn [getErrorMessage]. now rewrite Hv.
Qed.

(** X15. A run of [fetchDictionaryItems] ends with a list or with a
    TypeError, and with the TypeError exactly when the client is present,
    the path and the language are valid, the preview id is truthy and the
    GraphQL mutation rejects with a thrown value that [String] cannot
    convert, such as a plain object with an own [toString] property that
    is not a function: the [catch] block then raises while it extracts the
    message.  An absent client, a rejected context query (whatever its
    reason) and a mutation that rejects with an Error or with a
    convertible value all give the empty list. *)
Theorem fetchDictionaryItems_rejects_exactly
        (up : code_unit -> code_unit) (client : option ClientSDK) (path lang : jsstring) :
  ((exists items, outcome (fetchDictionaryItems up client path lang) = Normal items)
   \/ outcome (fetchDictionaryItems up client path lang) = Throw TypeError)
  /\ (outcome (fetchDictionaryItems up client path lang) = Throw TypeError
      <-> exists c id v,
        client = Some c
        /\ isValidSitecorePath up path = true
        /\ isValidLanguageCode up lang = true
        /\ outcome (getPreviewContextId client) = Normal id
        /\ truthy id = true
        /\ mutate c (js "xmc.preview.graphql")
                  (VObject
                     [(js "params",
                       VObject
                         [(js "query", VObject [(js "sitecoreContextId", id)]);
                          (js "body",
                           VObject [(js "query", VString (graphql_query path lang))])])])
           = Rejected (Thrown v)
        /\ ToString v = None)
  /\ (client = None -> outcome (fetchDictionaryItems up client path lang) = Normal [])
  /\ (forall c e, client = Some c ->
                  query c (js "application.context") = Rejected e ->
                  outcome (fetchDictionaryItems up client path lang) = Normal [])
  /\ (forall c id e,
         client = Some c ->
         outcome (getPreviewContextId client) = Normal id ->
         mutate c (js "xmc.preview.graphql")
                (VObject
                   [(js "params",
                     VObject
                       [(js "query", VObject [(js "sitecoreContextId", id)]);
                        (js "body",
                         VObject [(js "query", VString (graphql_query path lang))])])])
         = Rejected e ->
         e = TypeError
         \/ (exists message, e = ErrorObject message)
         \/ (exists v text, e = Thrown v /\ ToString v = Some text) ->
         outcome (fetchDictionaryItems up client path lang) = Normal []).
Proof.
  assert (Hraise : forall c e,
             outcome (fetchDictionaryItems up (Some c) path lang) = Throw e ->
             e = TypeError
             /\ exists id v,
                 isValidSitecorePath up path = true
                 /\ isValidLanguageCode up lang = true
                 /\ outcome (getPreviewContextId (Some c)) = Normal id
                 /\ truthy id = true
                 /\ mutate c (js "xmc.preview.graphql")
                           (graphql_params id (graphql_query path lang))
                    = Rejected (Thrown v)
                 /\ ToString v = None).
  { intros c e He.
    destruct (fetch_raises_only_in_catch up path lang c e He)
      as (-> & Hp & Hl & Ht & reason & Hm & Hr).
    split; [reflexivity|].
    apply printable_false_iff in Hr as (v & -> & Hv).
    exists (preview_id_of c), v. repeat split; try assumption.
    apply getPreviewContextId_value. }
  split; [|split; [|split; [|split]]].
  - destruct client as [c|]; [|left; now exists []].
    destruct (outcome (fetchDictionaryItems up (Some c) path lang)) as [items | e] eqn:Hout.
    + left. now exists items.
    + right. now destruct (Hraise c e Hout) as [-> _].
  - split.
    + intros Hout. destruct client as [c|]; [|discriminate].
      destruct (Hraise c TypeError Hout) as (_ & id & v & H).
      exists c, id, v. split; [reflexivity | exact H].
    + intros (c & id & v & -> & Hp & Hl & Hid & Ht & Hm & Hv).
      apply (fetch_mutate_rejected_unprintable up path lang c id (Thrown v) Hp Hl Hid Ht Hm).
      apply printable_false_iff. now exists v.
  - now intros ->.
  - intros c e -> Hq. now apply (fetch_query_rejected up path lang c e).
  - intros c id e -> Hid Hm He.
    apply (fetch_mutate_rejected up path lang c id e Hid Hm).
    destruct (printable e) eqn:Hprint; [reflexivity|].
    apply printable_false_iff in Hprint as (v & -> & Hv).
    destruct He as [He | [(message & He) | (v' & text & [= <-] & He)]];
      [discriminate | discriminate | congruence].
Qed.

Lemma fetchDictionaryItems_rejects_exactly_witness :
  outcome (fetchDictionaryItems no_folding (Some unprintable_graphql_client)
             DEFAULT_DICTIONARY_PATH DEFAULT_LANGUAGE) = Throw TypeError
  /\ outcome (fetchDictionaryItems no_folding (Some unprintable_client)
                DEFAULT_DICTIONARY_PATH DEFAULT_LANGUAGE) = Normal []
  /\ outcome (fetchDictionaryItems no_folding (Some failing_graphql_client)
                DEFAULT_DICTIONARY_PATH DEFAULT_LANGUAGE) = Normal [].
Proof.
  split; [|split].
  - destruct (fetchDictionaryItems_rejects_exactly no_folding (Some unprintable_graphql_client)
                DEFAULT_DICTIONARY_PATH DEFAULT_LANGUAGE) as (_ & [_ Hraises] & _).
    apply Hraises.
    exists unprintable_graphql_client, (VString (js "preview-1")), unprintable_reason.
    repeat split; reflexivity.
  - destruct (fetchDictionaryItems_rejects_exactly no_folding (Some unprintable_client)
                DEFAULT_DICTIONARY_PATH DEFAULT_LANGUAGE) as (_ & _ & _ & Hquery & _).
    apply (Hquery unprintable_client (Thrown unprintable_reason)); reflexivity.
  - destruct (fetchDictionaryItems_rejects_exactly no_folding (Some failing_graphql_client)
                DEFAULT_DICTIONARY_PATH DEFAULT_LANGUAGE) as (_ & _ & _ & _ & Hmutate).
    eapply (Hmutate failing_graphql_client (VString (js "preview-1"))); try reflexivity.
    vm_compute. eauto 10.
Defined.

(** ** The greeting component *)

Module WhoAmIFacts.

Import UseUser WhoAmI.

Lemma truthy_not_nullish (v : value) : truthy v = true -> nullish v = false.
Proof. destruct v; try reflexivity; discriminate. Qed.

Lemma displayName_truthy (extendedUser : value) :
  truthy (displayName extendedUser) = true.
Proof.
  unfold displayName, or_else.
  repeat match goal with
         | |- context [if ?b then _ else _] => destruct b eqn:?
         end; try reflexivity; assumption.
Qed.

Lemma falsy_coalesce_empty (v : value) :
  truthy v = false -> truthy (coalesce v (VString [])) = false.
Proof. intros H. unfold coalesce. now destruct (nullish v). Qed.

Lemma displayName_uses_name (extendedUser : value) (n : jsstring) :
  truthy (get_field extendedUser (js "given_name")) = false ->
  get_field extendedUser (js "name") = VString n -> n <> [] ->
  displayName extendedUser = VString n.
Proof.
  intros Hg Hn Hne.
  assert (Hnn : nullish extendedUser = false)
    by (destruct extendedUser; try reflexivity; discriminate).
  unfold displayName, given_name, currentUsername, or_else, opt_field.
  rewrite Hnn, (falsy_coalesce_empty _ Hg), Hn. cbn [coalesce nullish truthy].
  destruct n; [contradiction | reflexivity].
Qed.

(** X9. The name [WhoAmI] greets with is never empty: it is truthy for
    every user value.  A given name that is a non-empty string wins; a
    given name that is missing, null or the empty string falls through to
    a non-empty [name]; with neither, and for an undefined user, the
    greeting falls back to "Sara". *)
Theorem displayName_never_empty (extendedUser : value) :
  truthy (displayName extendedUser) = true
  /\ (forall g, get_field extendedUser (js "given_name") = VString g -> g <> [] ->
                displayName extendedUser = VString g)
  /\ (forall n, truthy (get_field extendedUser (js "given_name")) = false ->
                get_field extendedUser (js "name") = VString n -> n <> [] ->
                displayName extendedUser = VString n)
  /\ (truthy (get_field extendedUser (js "given_name")) = false ->
      truthy (get_field extendedUser (js "name")) = false ->
      displayName extendedUser = VString (js "Sara"))
  /\ (nullish extendedUser = true -> displayName extendedUser = VString (js "Sara")).
Proof.
  split; [apply displayName_truthy|].
  split.
  { intros g Hg Hne.
    assert (Hnn : nullish extendedUser = false)
      by (destruct extendedUser; try reflexivity; discriminate).
    unfold displayName, given_name, or_else, coalesce, opt_field.
    rewrite Hnn, Hg. cbn [nullish truthy]. destruct g; [contradiction | reflexivity]. }
  split; [intros n; apply displayName_uses_name|].
  split.
  - intros Hg Hn. unfold displayName, given_name, currentUsername, or_else, opt_field.
    destruct (nullish extendedUser); [reflexivity|].
    now rewrite (falsy_coalesce_empty _ Hg), (falsy_coalesce_empty _ Hn).
  - intros Hnn. unfold displayName, given_name, currentUsername, or_else, opt_field.
    now rewrite Hnn.
Qed.

(** X10. What the component shows once the effect of the first render
    is done: the loading line for ever when the client is absent or not
    initialized; otherwise a greeting, never the loading line, whose name
    is truthy, is "Sara" when the query rejects, and is the user's [name]
    when the response carries a non-empty [name] and no given name. *)
Theorem WhoAmI_after_first_effect (client : option ClientSDK) (isInitialized : bool) :
  (client = None \/ isInitialized = false ->
   WhoAmI (useUser client isInitialized) = Elem (js "div") [Text (js "Loading...")])
  /\ (forall c, client = Some c -> isInitialized = true ->
        exists shown,
          WhoAmI (useUser client isInitialized)
          = Elem (js "div") [Text (js "Hello "); Expr shown]
          /\ truthy shown = true
          /\ (forall e, query c (js "host.user") = Rejected e ->
                        shown = VString (js "Sara"))
          /\ (forall r n, query c (js "host.user") = Resolved r ->
                          get_field (get_field r (js "data")) (js "name") = VString n ->
                          n <> [] ->
                          truthy (get_field (get_field r (js "data")) (js "given_name")) = false ->
                          shown = VString n)).
Proof.
  split.
  - intros [-> | ->]; [|destruct client]; reflexivity.
  - intros c -> ->.
    destruct (fetchUserData_shape c) as (middle & Hshape & _ & Hok & Hfail).
    unfold useUser. rewrite (after_effect_shape c UseUser.initial middle Hshape).
    unfold WhoAmI. cbn [setIsLoading isLoading user].
    eexists. split; [reflexivity|].
    split; [apply displayName_truthy|]. split.
    + intros e Hq. rewrite Hfail by eauto. reflexivity.
    + intros r n Hq Hn Hne Hg.
      assert (Hr : nullish r = false) by (destruct r; try reflexivity; discriminate).
      rewrite (Hok r Hq Hr). cbn [fold_left apply_event setUser user setIsLoading].
      now apply displayName_uses_name.
Qed.

End WhoAmIFacts.

(** ** The page's effects *)

Module PageFacts.

Import StandalonePage.

Section Page.

Variable up : code_unit -> code_unit.

Lemma page_arguments_valid :
  isValidSitecorePath up dictionaryPath = true /\ isValidLanguageCode up (js "en") = true.
Proof. now rewrite isValidSitecorePath_spec, isValidLanguageCode_spec. Qed.

Lemma fold_left_effects (t : list event) (st : PageState) :
  fold_left apply_event (map PEffect t) st = st.
Proof. induction t as [|e t IH]; [reflexivity | exact IH]. Qed.

Lemma page_sdk_calls_map (t : list event) :
  filter isPageSdkCall (map PEffect t) = map PEffect (sdk_calls t).
Proof.
  unfold sdk_calls. induction t as [|e t IH]; [reflexivity|].
  cbn [map filter isPageSdkCall]. destruct (isSdkCall e); cbn [map]; now rewrite IH.
Qed.

Lemma dictionaryEffect_returned (c : ClientSDK) (items : list DictionaryItem) :
  outcome (fetchDictionaryItems up (Some c) dictionaryPath (js "en")) = Normal items ->
  dictionaryEffect up (Some c) true
  = map PEffect (trace (fetchDictionaryItems up (Some c) dictionaryPath (js "en")))
    ++ (if (0 <? List.length items)%nat
        then [PEffect (Console LLog (js "Successfully fetched dictionary items:"));
              SetAppDictionaryItems items;
              PEffect (Console LLog (js "First dictionary item:"))]
        else [PEffect (Console LLog (js "No dictionary items found"));
              SetAppDictionaryItems []]).
Proof. intros H. unfold dictionaryEffect. cbn [negb]. now rewrite H. Qed.

Lemma dictionaryEffect_raised (c : ClientSDK) (e : thrown) :
  outcome (fetchDictionaryItems up (Some c) dictionaryPath (js "en")) = Throw e ->
  dictionaryEffect up (Some c) true
  = map PEffect (trace (fetchDictionaryItems up (Some c) dictionaryPath (js "en")))
    ++ [PEffect (Console LError (js "Error fetching dictionary items:"))].
Proof. intros H. unfold dictionaryEffect. cbn [negb]. now rewrite H. Qed.

Lemma dictionaryEffect_tail_quiet (items : list DictionaryItem) :
  filter isPageSdkCall
    (if (0 <? List.length items)%nat
     then [PEffect (Console LLog (js "Successfully fetched dictionary items:"));
           SetAppDictionaryItems items;
           PEffect (Console LLog (js "First dictionary item:"))]
     else [PEffect (Console LLog (js "No dictionary items found"));
           SetAppDictionaryItems []]) = [].
Proof. now destruct (0 <? List.length items)%nat. Qed.

(** X11. The dictionary effect does nothing when the client is absent or
    not initialized.  Otherwise it forwards the events of the fetcher and
    then: when the fetcher returned a list, it logs and stores exactly
    that list (the empty list included), leaving the context cell as it
    was; when the fetcher rejected, it logs its own error line and leaves
    the whole state as it was, so the dictionary cell of a first render
    stays undefined.  The fetcher rejects only with the TypeError of its
    [catch] block, after a mutation rejected with a reason whose message
    cannot be extracted. *)
Theorem dictionaryEffect_stores_result
        (client : option ClientSDK) (isInitialized : bool) (st : PageState) :
  (client = None \/ isInitialized = false -> dictionaryEffect up client isInitialized = [])
  /\ (forall c, client = Some c -> isInitialized = true ->
        let fetched := fetchDictionaryItems up client dictionaryPath (js "en") in
        let events := dictionaryEffect up client isInitialized in
        (forall items,
            outcome fetched = Normal items ->
            events
            = map PEffect (trace fetched)
              ++ (if (0 <? List.length items)%nat
                  then [PEffect (Console LLog (js "Successfully fetched dictionary items:"));
                        SetAppDictionaryItems items;
                        PEffect (Console LLog (js "First dictionary item:"))]
                  else [PEffect (Console LLog (js "No dictionary items found"));
                        SetAppDictionaryItems []])
            /\ fold_left apply_event events st
               = {| appContext := appContext st; appDictionaryItems := Some items |})
        /\ (forall e,
              outcome fetched = Throw e ->
              events
              = map PEffect (trace fetched)
                ++ [PEffect (Console LError (js "Error fetching dictionary items:"))]
              /\ fold_left apply_event events st = st
              /\ e = TypeError
              /\ exists id reason,
                  outcome (getPreviewContextId client) = Normal id
                  /\ mutate c (js "xmc.preview.graphql")
                            (VObject
                               [(js "params",
                                 VObject
                                   [(js "query", VObject [(js "sitecoreContextId", id)]);
                                    (js "body",
                                     VObject
                                       [(js "query",
                                         VString (graphql_query dictionaryPath (js "en")))])])])
                     = Rejected reason
                  /\ printable reason = false)).
Proof.
  split.
  - intros [-> | ->]; [|destruct client]; reflexivity.
  - intros c -> -> fetched events. subst fetched events. split.
    + intros items Hitems. rewrite (dictionaryEffect_returned c items Hitems).
      split; [reflexivity|].
      rewrite fold_left_app, fold_left_effects.
      destruct items as [|item items]; reflexivity.
    + intros e He. rewrite (dictionaryEffect_raised c e He).
      split; [reflexivity|].
      split; [now rewrite fold_left_app, fold_left_effects|].
      destruct (fetch_raises_only_in_catch up dictionaryPath (js "en") c e He)
        as (-> & _ & _ & _ & reason & Hm & Hr).
      split; [reflexivity|].
      exists (preview_id_of c), reason.
      split; [apply getPreviewContextId_value|]. now split.
Qed.

Lemma contextEffect_run (c : ClientSDK) (error : option thrown) :
  isTruthyError error = false ->
  contextEffect (Some c) error true
  = PEffect (SdkQuery (js "application.context"))
      :: match query c (js "application.context") with
         | Resolved r =>
           if nullish r
           then [PEffect (Console LError (js "Error retrieving application.context:"))]
           else [PEffect (Console LLog (js "Success retrieving application.context:"));
                 SetAppContext (get_field r (js "data"))]
         | Rejected _ =>
           [PEffect (Console LError (js "Error retrieving application.context:"))]
         end.
Proof.
  intros Herr. unfold contextEffect, client_query, member. rewrite Herr. cbn [negb andb].
  destruct (query c (js "application.context")) as [r | e];
    [destruct (nullish r) eqn:En|];
    cbn [bind tryCatch await ret raise console app trace outcome fst snd map];
    rewrite ?En;
    cbn [bind tryCatch await ret raise console app trace outcome fst snd map];
    reflexivity.
Qed.

Lemma contextEffect_error (client : option ClientSDK) (error : option thrown)
      (isInitialized : bool) :
  isTruthyError error = true ->
  contextEffect client error isInitialized
  = [PEffect (Console LError (js "Error initializing Marketplace client:"))].
Proof. intros Herr. unfold contextEffect. now rewrite Herr. Qed.

(** X12. The context effect tests the truthiness of the error: with a
    truthy error it only logs, whatever the client; with no error or a
    falsy one it queries the SDK exactly when the flag is set and the
    client is present, and does nothing otherwise.  A rejected query and a
    response that is null or undefined leave the page state as it was;
    any other response stores its [data] field as it is.  For a client
    that answers with that same response [getApplicationContext] returns
    the stored value, undefined being read as null. *)
Theorem contextEffect_stores_raw_data
        (client : option ClientSDK) (error : option thrown) (isInitialized : bool)
        (st : PageState) :
  let events := contextEffect client error isInitialized in
  let after := fold_left apply_event events st in
  (isTruthyError error = true ->
   events = [PEffect (Console LError (js "Error initializing Marketplace client:"))]
   /\ after = st)
  /\ (isTruthyError error = false -> client = None \/ isInitialized = false -> events = [])
  /\ (forall c, isTruthyError error = false -> isInitialized = true -> client = Some c ->
        filter isPageSdkCall events = [PEffect (SdkQuery (js "application.context"))]
        /\ appDictionaryItems after = appDictionaryItems st
        /\ (forall r, query c (js "application.context") = Resolved r -> nullish r = false ->
                      appContext after = get_field r (js "data")
                      /\ forall c', query c' (js "application.context") = Resolved r ->
                                    outcome (getApplicationContext (Some c'))
                                    = Normal (coalesce (appContext after) VNull))
        /\ ((exists e, query c (js "application.context") = Rejected e)
            \/ (exists r, query c (js "application.context") = Resolved r /\ nullish r = true) ->
            after = st)).
Proof.
  cbv zeta. split; [|split].
  - intros Herr. now rewrite (contextEffect_error client error isInitialized Herr).
  - intros Herr Hskip. unfold contextEffect. rewrite Herr. cbn [negb andb].
    destruct Hskip as [-> | ->]; [now destruct isInitialized | reflexivity].
  - intros c Herr -> ->. rewrite (contextEffect_run c error Herr).
    destruct (query c (js "application.context")) as [r | e];
      [destruct (nullish r) eqn:En|];
      cbn [fold_left apply_event filter isPageSdkCall isSdkCall
           appContext appDictionaryItems];
      (split; [reflexivity|]); (split; [reflexivity|]); split.
    + intros r' [= <-] H. congruence.
    + now destruct st.
    + intros r' [= <-] _. split; [reflexivity|].
      intros c' Hq'. rewrite getApplicationContext_outcome, Hq'.
      unfold opt_field. now rewrite En.
    + intros [[e H] | (r' & [= <-] & H)]; congruence.
    + discriminate.
    + now destruct st.
Qed.

(** X13. One render with the client ready sends the [application.context]
    query twice, once from the page's own effect and once from the
    fetcher, before the optional GraphQL mutation; a truthy initialisation
    error silences the page's own query but not the dictionary fetch.
    The two queries are two calls: [c] answers the page's effect and [c']
    the fetcher. *)
Theorem page_effects_sdk_traffic
        (c c' : ClientSDK) (error : option thrown) :
  exists id,
    outcome (getPreviewContextId (Some c')) = Normal id
    /\ filter isPageSdkCall
              (contextEffect (Some c) error true ++ dictionaryEffect up (Some c') true)
       = map PEffect
             ((if isTruthyError error then [] else [SdkQuery (js "application.context")])
                ++ SdkQuery (js "application.context")
                :: (if truthy id
                    then [SdkMutate
                            (js "xmc.preview.graphql")
                            (VObject
                               [(js "params",
                                 VObject
                                   [(js "query", VObject [(js "sitecoreContextId", id)]);
                                    (js "body",
                                     VObject
                                       [(js "query",
                                         VString (graphql_query dictionaryPath (js "en")))])])])]
                    else [])).
Proof.
  destruct page_arguments_valid as [Hp Hl].
  exists (preview_id_of c'). split; [apply getPreviewContextId_value|].
  change (VObject
            [(js "params",
              VObject
                [(js "query", VObject [(js "sitecoreContextId", preview_id_of c')]);
                 (js "body",
                  VObject [(js "query", VString (graphql_query dictionaryPath (js "en")))])])])
    with (graphql_params (preview_id_of c') (graphql_query dictionaryPath (js "en"))).
  rewrite filter_app, map_app.
  assert (Hdict : filter isPageSdkCall (dictionaryEffect up (Some c') true)
                  = map PEffect
                        (SdkQuery (js "application.context")
                           :: (if truthy (preview_id_of c')
                               then [SdkMutate (js "xmc.preview.graphql")
                                       (graphql_params (preview_id_of c')
                                          (graphql_query dictionaryPath (js "en")))]
                               else []))).
  { destruct (outcome (fetchDictionaryItems up (Some c') dictionaryPath (js "en")))
      as [items | e] eqn:Hout.
    - rewrite (dictionaryEffect_returned c' items Hout), filter_app, page_sdk_calls_map.
      rewrite (fetchDictionaryItems_sdk_calls_valid up c' dictionaryPath (js "en") Hp Hl).
      now rewrite dictionaryEffect_tail_quiet, app_nil_r.
    - rewrite (dictionaryEffect_raised c' e Hout), filter_app, page_sdk_calls_map.
      rewrite (fetchDictionaryItems_sdk_calls_valid up c' dictionaryPath (js "en") Hp Hl).
      cbn [filter isPageSdkCall isSdkCall]. now rewrite app_nil_r. }
  rewrite Hdict. f_equal.
  destruct (isTruthyError error) eqn:Herr.
  - now rewrite (contextEffect_error (Some c) error true Herr).
  - rewrite (contextEffect_run c error Herr). cbn [filter isPageSdkCall isSdkCall map].
    destruct (query c (js "application.context")) as [r | e];
      [destruct (nullish r)|]; reflexivity.
Qed.

End Page.

Lemma dictionaryEffect_stores_result_witness :
  fold_left apply_event
            (dictionaryEffect no_folding (Some unprintable_graphql_client) true) initial
  = initial
  /\ fold_left apply_event
               (dictionaryEffect no_folding (Some failing_graphql_client) true) initial
     = {| appContext := VUndefined; appDictionaryItems := Some [] |}.
Proof.
  split.
  - destruct (dictionaryEffect_stores_result no_folding (Some unprintable_graphql_client)
                true initial) as [_ Hrun].
    destruct (Hrun unprintable_graphql_client eq_refl eq_refl) as [_ Hraised].
    destruct (Hraised TypeError) as (_ & Hstate & _); [reflexivity | exact Hstate].
  - destruct (dictionaryEffect_stores_result no_folding (Some failing_graphql_client)
                true initial) as [_ Hrun].
    destruct (Hrun failing_graphql_client eq_refl eq_refl) as [Hreturned _].
    destruct (Hreturned []) as (_ & Hstate); [reflexivity | exact Hstate].
Defined.

End PageFacts.

(** ** The user hook, run again *)

Module UseUserFacts.

Import UseUser.

Lemma after_effect_cases (c : ClientSDK) (st : HookState) :
  after_effect (Some c) true st
  = match query c (js "host.user") with
    | Resolved r =>
      if nullish r then {| user := user st; isLoading := false |}
      else {| user := get_field r (js "data"); isLoading := false |}
    | Rejected _ => {| user := user st; isLoading := false |}
    end.
Proof.
  destruct (fetchUserData_shape c) as (middle & Hshape & _ & Hok & Hfail).
  rewrite (after_effect_shape c st middle Hshape).
  destruct (query c (js "host.user")) as [r | e]; [destruct (nullish r) eqn:En|].
  - rewrite Hfail by eauto. reflexivity.
  - rewrite (Hok r eq_refl En). reflexivity.
  - rewrite Hfail by eauto. reflexivity.
Qed.

(** X14. Two runs of the effect, the client answering the first as [c]
    and the second as [c']: each run sends the [host.user] query, and both
    end with the loading flag cleared.  A second run that succeeds
    overwrites whatever the first left, so the state is that of the second
    run alone; a second run that fails keeps the user the first run left,
    hence the user loaded first when the first run succeeded. *)
Theorem useUser_rerun (c c' : ClientSDK) (st : HookState) :
  filter isHookQuery (fetchUserData (Some c) true ++ fetchUserData (Some c') true)
  = [Effect (SdkQuery (js "host.user")); Effect (SdkQuery (js "host.user"))]
  /\ isLoading (after_effect (Some c') true (after_effect (Some c) true st)) = false
  /\ (forall r', query c' (js "host.user") = Resolved r' -> nullish r' = false ->
                 after_effect (Some c') true (after_effect (Some c) true st)
                 = after_effect (Some c') true st)
  /\ ((exists e', query c' (js "host.user") = Rejected e')
      \/ (exists r', query c' (js "host.user") = Resolved r' /\ nullish r' = true) ->
      after_effect (Some c') true (after_effect (Some c) true st)
      = after_effect (Some c) true st)
  /\ (forall r e', query c (js "host.user") = Resolved r -> nullish r = false ->
                   query c' (js "host.user") = Rejected e' ->
                   after_effect (Some c') true (after_effect (Some c) true st)
                   = {| user := get_field r (js "data"); isLoading := false |}).
Proof.
  split; [|split; [|split; [|split]]].
  - destruct (fetchUserData_shape c) as (middle & Hshape & Hquiet & _).
    destruct (fetchUserData_shape c') as (middle' & Hshape' & Hquiet' & _).
    rewrite Hshape, Hshape', !filter_app. cbn [filter isHookQuery isSdkCall app].
    now rewrite Hquiet, Hquiet'.
  - rewrite (after_effect_cases c').
    destruct (query c' (js "host.user")) as [r' | e']; [destruct (nullish r')|]; reflexivity.
  - intros r' Hq' Hr'. rewrite !(after_effect_cases c'), Hq', Hr'. reflexivity.
  - intros Hfail. rewrite (after_effect_cases c'), (after_effect_cases c).
    destruct Hfail as [[e' Hq'] | (r' & Hq' & Hr')]; rewrite Hq', ?Hr';
      destruct (query c (js "host.user")) as [r | e]; [destruct (nullish r)| | destruct (nullish r)|];
      reflexivity.
  - intros r e' Hq Hr Hq'. rewrite (after_effect_cases c'), (after_effect_cases c), Hq, Hr, Hq'.
    reflexivity.
Qed.

End UseUserFacts.
